(** * ChRIS store: the plugin manager ([plugins/services/manager.py])

    A shallow embedding of [PluginManager] (add / modify / remove of
    plugin rows through the command line front end) together with the
    parts of the Python runtime it leans on: text as sequences of code
    points, UTF-8, and the [json] encoder and decoder with their default
    settings. *)

From Stdlib Require Import ZArith NArith List Bool Lia String Ascii.
From Stdlib Require Import Decimal DecimalFacts DecimalN DecimalPos DecimalZ.
From stdpp Require Import base decidable option list gmap.

Local Open Scope N_scope.

(** ** Python text *)

(** A Python [str] is a sequence of code points; a code point is a
    number below [0x110000]. *)
Abbreviation pystr := (list N).

(** ASCII literals of the source, as code points. *)
Definition lit (s : string) : pystr :=
  List.map N_of_ascii (list_ascii_of_string s).

Definition QUOTE : N := 34.
Definition BACKSLASH : N := 92.

Definition is_codepoint (c : N) : bool := c <? 0x110000.
Definition is_high_surrogate (c : N) : bool := (0xD800 <=? c) && (c <=? 0xDBFF).
Definition is_low_surrogate (c : N) : bool := (0xDC00 <=? c) && (c <=? 0xDFFF).
Definition is_surrogate (c : N) : bool := (0xD800 <=? c) && (c <=? 0xDFFF).

(** A Unicode scalar value: a code point that is not a surrogate.  Text
    that can be written down in UTF-8 consists of scalar values only. *)
Definition is_scalar (c : N) : bool := is_codepoint c && negb (is_surrogate c).

Definition unicode_text (s : pystr) : Prop := Forall (fun c => is_scalar c = true) s.

(** Python truthiness of an optional string argument: [None] and the
    empty string are falsy. *)
Definition truthy (o : option pystr) : bool :=
  match o with
  | Some (_ :: _) => true
  | _ => false
  end.

(** ** UTF-8 ([str.encode()] and [bytes.decode()]) *)

Definition utf8_encode_char (c : N) : option (list N) :=
  if c <? 0x80 then Some [c]
  else if c <? 0x800 then Some [0xC0 + c / 64; 0x80 + c mod 64]
  else if is_surrogate c then None
  else if c <? 0x10000 then
    Some [0xE0 + c / 4096; 0x80 + (c / 64) mod 64; 0x80 + c mod 64]
  else if c <? 0x110000 then
    Some [0xF0 + c / 262144; 0x80 + (c / 4096) mod 64;
          0x80 + (c / 64) mod 64; 0x80 + c mod 64]
  else None.

Fixpoint utf8_encode_N (s : pystr) : option (list N) :=
  match s with
  | [] => Some []
  | c :: r =>
      match utf8_encode_char c, utf8_encode_N r with
      | Some bs, Some rs => Some (bs ++ rs)
      | _, _ => None
      end
  end.

Fixpoint bytes_of_N (l : list N) : option (list Byte.byte) :=
  match l with
  | [] => Some []
  | n :: r =>
      match Byte.of_N n, bytes_of_N r with
      | Some b, Some bs => Some (b :: bs)
      | _, _ => None
      end
  end.

(** [s.encode()]: strict UTF-8; a surrogate raises [UnicodeEncodeError]. *)
Definition encode (s : pystr) : option (list Byte.byte) :=
  match utf8_encode_N s with
  | Some l => bytes_of_N l
  | None => None
  end.

Definition is_cont (b : N) : bool := (0x80 <=? b) && (b <? 0xC0).

Fixpoint utf8_decode_N (bs : list N) : option pystr :=
  match bs with
  | [] => Some []
  | b0 :: r =>
      if b0 <? 0x80 then cons b0 <$> utf8_decode_N r
      else if b0 <? 0xC2 then None
      else if b0 <? 0xE0 then
        match r with
        | b1 :: r1 =>
            if is_cont b1
            then cons ((b0 - 0xC0) * 64 + (b1 - 0x80)) <$> utf8_decode_N r1
            else None
        | _ => None
        end
      else if b0 <? 0xF0 then
        match r with
        | b1 :: b2 :: r2 =>
            let c := (b0 - 0xE0) * 4096 + (b1 - 0x80) * 64 + (b2 - 0x80) in
            if is_cont b1 && is_cont b2 && (0x800 <=? c) && negb (is_surrogate c)
            then cons c <$> utf8_decode_N r2
            else None
        | _ => None
        end
      else if b0 <? 0xF5 then
        match r with
        | b1 :: b2 :: b3 :: r3 =>
            let c := (b0 - 0xF0) * 262144 + (b1 - 0x80) * 4096
                     + (b2 - 0x80) * 64 + (b3 - 0x80) in
            if is_cont b1 && is_cont b2 && is_cont b3
               && (0x10000 <=? c) && (c <? 0x110000)
            then cons c <$> utf8_decode_N r3
            else None
        | _ => None
        end
      else None
  end.

(** [b.decode()]: strict UTF-8. *)
Definition decode (bs : list Byte.byte) : option pystr :=
  utf8_decode_N (List.map Byte.to_N bs).

(** ** Hexadecimal digits of [\uXXXX] escapes *)

Definition hex_char (d : N) : N := if d <? 10 then 48 + d else 87 + d.

(** ['{0:04x}'.format(n)] for [n < 0x10000]. *)
Definition hex4 (n : N) : pystr :=
  [hex_char (n / 4096 mod 16); hex_char (n / 256 mod 16);
   hex_char (n / 16 mod 16); hex_char (n mod 16)].

Definition hex_val (c : N) : option N :=
  if (48 <=? c) && (c <=? 57) then Some (c - 48)
  else if (97 <=? c) && (c <=? 102) then Some (c - 87)
  else if (65 <=? c) && (c <=? 70) then Some (c - 55)
  else None.

(** [_decode_uXXXX]: four hexadecimal digits, either case. *)
Definition decode_hex4 (a b c d : N) : option N :=
  match hex_val a, hex_val b, hex_val c, hex_val d with
  | Some x, Some y, Some z, Some w => Some (x * 4096 + y * 256 + z * 16 + w)
  | _, _, _, _ => None
  end.

(** ** Integers ([int.__repr__] and [int(text)]) *)

Definition is_digit (c : N) : bool := (48 <=? c) && (c <=? 57).

Fixpoint uint_chars (d : uint) : pystr :=
  match d with
  | Nil => []
  | D0 d => 48 :: uint_chars d
  | D1 d => 49 :: uint_chars d
  | D2 d => 50 :: uint_chars d
  | D3 d => 51 :: uint_chars d
  | D4 d => 52 :: uint_chars d
  | D5 d => 53 :: uint_chars d
  | D6 d => 54 :: uint_chars d
  | D7 d => 55 :: uint_chars d
  | D8 d => 56 :: uint_chars d
  | D9 d => 57 :: uint_chars d
  end.

Definition digit_cons (c : N) (d : uint) : uint :=
  if c =? 48 then D0 d else if c =? 49 then D1 d else if c =? 50 then D2 d
  else if c =? 51 then D3 d else if c =? 52 then D4 d else if c =? 53 then D5 d
  else if c =? 54 then D6 d else if c =? 55 then D7 d else if c =? 56 then D8 d
  else D9 d.

Fixpoint uint_of_chars (s : pystr) : uint :=
  match s with
  | [] => Nil
  | c :: r => digit_cons c (uint_of_chars r)
  end.

Definition int_repr (z : Z) : pystr :=
  match Z.to_int z with
  | Pos d => uint_chars d
  | Neg d => 45 :: uint_chars d
  end.

(** [int(text)] on a text matched by the integer part of the number
    pattern. *)
Definition py_int (t : pystr) : Z :=
  match t with
  | c :: r => if c =? 45 then Z.of_int (Neg (uint_of_chars r))
              else Z.of_int (Pos (uint_of_chars t))
  | [] => 0%Z
  end.

(** ** The number pattern of [json.scanner]

    An optional minus sign and either a single zero or a non-zero digit
    followed by digits; then optionally a dot and one or more digits; then
    optionally [e] or [E], an optional sign and one or more digits.  It is
    matched at the start of the text, and the three groups and the
    unmatched rest are returned. *)

Fixpoint scan_digits (s : pystr) : pystr * pystr :=
  match s with
  | c :: r =>
      if is_digit c
      then let '(ds, rest) := scan_digits r in (c :: ds, rest)
      else ([], s)
  | [] => ([], [])
  end.

Definition match_integer (s : pystr) : option (pystr * pystr) :=
  let '(sign, s1) :=
    match s with
    | c :: r => if c =? 45 then ([45], r) else ([], s)
    | [] => ([], s)
    end in
  match s1 with
  | c :: r =>
      if c =? 48 then Some (sign ++ [48], r)
      else if is_digit c
      then let '(ds, rest) := scan_digits r in Some (sign ++ c :: ds, rest)
      else None
  | [] => None
  end.

Definition match_frac (s : pystr) : pystr * pystr :=
  match s with
  | c :: r =>
      if c =? 46
      then let '(ds, rest) := scan_digits r in
           match ds with
           | [] => ([], s)
           | _ => (46 :: ds, rest)
           end
      else ([], s)
  | [] => ([], s)
  end.

Definition match_exp (s : pystr) : pystr * pystr :=
  match s with
  | c :: r =>
      if (c =? 101) || (c =? 69)
      then
        let '(sign, r1) :=
          match r with
          | c2 :: r2 => if (c2 =? 43) || (c2 =? 45) then ([c2], r2) else ([], r)
          | [] => ([], r)
          end in
        let '(ds, rest) := scan_digits r1 in
        match ds with
        | [] => ([], s)
        | _ => (c :: sign ++ ds, rest)
        end
      else ([], s)
  | [] => ([], s)
  end.

Definition match_number (s : pystr) : option (pystr * pystr * pystr * pystr) :=
  match match_integer s with
  | None => None
  | Some (integer, r) =>
      let '(frac, r1) := match_frac r in
      let '(exp, r2) := match_exp r1 in
      Some (integer, frac, exp, r2)
  end.

(** ** Floats

    Python floats are IEEE doubles; the manager never computes with them,
    it only lets [json] read and print them.  They are kept abstract:
    [float_of_str] is [float(text)] and [floatstr] is the encoder's
    [floatstr] ([float.__repr__], or [NaN], [Infinity], [-Infinity]). *)

Class PyFloat := {
  float : Type;
  float_of_str : pystr -> float;
  floatstr : float -> pystr
}.

(** What [floatstr] prints: one of the three constants, or a text the
    number pattern matches in full with a fraction or an exponent. *)
Definition float_lexeme (t : pystr) : Prop :=
  t = lit "NaN" \/ t = lit "Infinity" \/ t = lit "-Infinity" \/
  exists i f e, match_number t = Some (i, f, e, []) /\ (f <> [] \/ e <> []).

(** [repr] of a float reads back as the same float. *)
Class PyFloatLaws `{PyFloat} : Prop := {
  floatstr_lexeme : forall x : float, float_lexeme (floatstr x);
  float_of_floatstr : forall x : float, float_of_str (floatstr x) = x
}.

(** The smallest model of floats: NaN alone. *)
Definition nan_float : PyFloat :=
  {| float := unit; float_of_str := fun _ => tt; floatstr := fun _ => lit "NaN" |}.

(** ** Notions the proofs use: strings and numbers *)

(** A string that [scanstring] can have produced from text: code points
    only, and no high surrogate directly followed by a low one. *)
Fixpoint str_ok (s : pystr) : bool :=
  match s with
  | [] => true
  | c :: r =>
      is_codepoint c
      && negb (is_high_surrogate c
               && match r with c2 :: _ => is_low_surrogate c2 | [] => false end)
      && str_ok r
  end.

(** The string starts with a low surrogate. *)
Definition head_low (s : pystr) : bool :=
  match s with c2 :: _ => is_low_surrogate c2 | [] => false end.

(** The text starts with a [\uXXXX] escape of a low surrogate. *)
Definition starts_low_escape (r2 : pystr) : bool :=
  match r2 with
  | bs :: u :: k1 :: k2 :: k3 :: k4 :: _ =>
      (bs =? 92) && (u =? 117)
      && match decode_hex4 k1 k2 k3 k4 with
         | Some uni2 => is_low_surrogate uni2
         | None => false
         end
  | _ => false
  end.

(** The text does not start with a [\uXXXX] escape of a low surrogate. *)
Definition no_low_escape (r2 : pystr) : Prop :=
  forall k1 k2 k3 k4 r3,
    r2 = 92 :: 117 :: k1 :: k2 :: k3 :: k4 :: r3 ->
    exists uni2, decode_hex4 k1 k2 k3 k4 = Some uni2 /\ is_low_surrogate uni2 = false.

(** What may follow a number for the pattern to stop right after it. *)
Definition number_stop (rest : pystr) : bool :=
  match rest with
  | [] => true
  | c :: _ => negb (is_digit c || (c =? 46) || (c =? 101) || (c =? 69))
  end.

(** Decimal digits as [int.__repr__] writes them: a single zero, or no
    leading zero. *)
Definition canon (d : uint) : bool :=
  match d with
  | Nil => false
  | D0 Nil => true
  | D0 _ => false
  | _ => true
  end.

(** Text of code points below 128. *)
Definition is_ascii (s : pystr) : Prop := Forall (fun c => c < 128) s.

(** ** JSON values, as [json.loads] builds them *)

Section Json.
Context {PF : PyFloat}.

(** [None], [True]/[False], [int], [float], [str], [list] and [dict].  A
    [dict] is kept as its items in insertion order. *)
#[warnings="-register-all"]
Inductive json : Type :=
| JNull
| JBool (b : bool)
| JInt (z : Z)
| JFloat (x : float)
| JStr (s : pystr)
| JArr (l : list json)
| JObj (items : list (pystr * json)).

(** [d[k] = v] on an insertion-ordered dict: an existing key keeps its
    place and takes the new value, a new key goes last. *)
Fixpoint dict_set (k : pystr) (v : json) (d : list (pystr * json))
  : list (pystr * json) :=
  match d with
  | [] => [(k, v)]
  | (k', v') :: d' =>
      if decide (k = k') then (k', v) :: d' else (k', v') :: dict_set k v d'
  end.

(** [dict(pairs)] *)
Definition dict (pairs : list (pystr * json)) : list (pystr * json) :=
  fold_left (fun d kv => dict_set (fst kv) (snd kv) d) pairs [].

(** [d.get(k)] *)
Fixpoint dict_get (k : pystr) (d : list (pystr * json)) : option json :=
  match d with
  | [] => None
  | (k', v) :: d' => if decide (k = k') then Some v else dict_get k d'
  end.

(** *** [json.dumps] with its defaults ([ensure_ascii], separators
    [", "] and [": "], no indentation) *)

(** The surrogate pair of a code point above the basic plane:
    [n = c - 0x10000], [0xd800 | ((n >> 10) & 0x3ff)] and
    [0xdc00 | (n & 0x3ff)]. *)
Definition high_of (c : N) : N :=
  N.lor 0xD800 (N.land (N.shiftr (c - 0x10000) 10) 0x3FF).
Definition low_of (c : N) : N :=
  N.lor 0xDC00 (N.land (c - 0x10000) 0x3FF).

(** One character of [py_encode_basestring_ascii]. *)
Definition escape_char (c : N) : pystr :=
  if c =? 34 then [92; 34]
  else if c =? 92 then [92; 92]
  else if c =? 10 then [92; 110]
  else if c =? 13 then [92; 114]
  else if c =? 9 then [92; 116]
  else if c =? 12 then [92; 102]
  else if c =? 8 then [92; 98]
  else if (32 <=? c) && (c <=? 126) then [c]
  else if c <? 0x10000 then 92 :: 117 :: hex4 c
  else
    (92 :: 117 :: hex4 (high_of c)) ++ (92 :: 117 :: hex4 (low_of c)).

Definition encode_basestring_ascii (s : pystr) : pystr :=
  34 :: flat_map escape_char s ++ [34].

(** [sep.join(parts)] *)
Fixpoint join (sep : pystr) (parts : list pystr) : pystr :=
  match parts with
  | [] => []
  | [p] => p
  | p :: ps => p ++ sep ++ join sep ps
  end.

Fixpoint json_dumps (v : json) : pystr :=
  match v with
  | JNull => lit "null"
  | JBool true => lit "true"
  | JBool false => lit "false"
  | JInt z => int_repr z
  | JFloat x => floatstr x
  | JStr s => encode_basestring_ascii s
  | JArr l => 91 :: join (lit ", ") (List.map json_dumps l) ++ [93]
  | JObj items =>
      123 :: join (lit ", ")
               (List.map (fun kv => encode_basestring_ascii (fst kv)
                                    ++ lit ": " ++ json_dumps (snd kv)) items)
          ++ [125]
  end.

(** *** [json.loads] with its defaults (strict strings) *)

Definition is_ws (c : N) : bool :=
  (c =? 32) || (c =? 9) || (c =? 10) || (c =? 13).

Fixpoint skip_ws (s : pystr) : pystr :=
  match s with
  | c :: r => if is_ws c then skip_ws r else s
  | [] => []
  end.

Fixpoint strip_prefix (p s : pystr) : option pystr :=
  match p, s with
  | [], _ => Some s
  | a :: p', b :: s' => if a =? b then strip_prefix p' s' else None
  | _ :: _, [] => None
  end.

(** The one-letter escapes of [BACKSLASH]. *)
Definition unescape (e : N) : option N :=
  if e =? 34 then Some 34
  else if e =? 92 then Some 92
  else if e =? 47 then Some 47
  else if e =? 98 then Some 8
  else if e =? 102 then Some 12
  else if e =? 110 then Some 10
  else if e =? 114 then Some 13
  else if e =? 116 then Some 9
  else None.

Definition join_surrogates (uni uni2 : N) : N :=
  0x10000 + N.lor (N.shiftl (uni - 0xD800) 10) (uni2 - 0xDC00).

Definition prepend (c : N) (r : option (pystr * pystr)) : option (pystr * pystr) :=
  match r with
  | Some (str, rest) => Some (c :: str, rest)
  | None => None
  end.

(** [scanstring], entered after the opening quote: the decoded string and
    the text after the closing quote. *)
Fixpoint scanstring (s : pystr) : option (pystr * pystr) :=
  match s with
  | [] => None
  | c :: r =>
      if c =? 34 then Some ([], r)
      else if c =? 92 then
        match r with
        | [] => None
        | e :: r1 =>
            if e =? 117 then
              match r1 with
              | h1 :: h2 :: h3 :: h4 :: r2 =>
                  match decode_hex4 h1 h2 h3 h4 with
                  | None => None
                  | Some uni =>
                      if is_high_surrogate uni then
                        match r2 with
                        | bs :: u :: k1 :: k2 :: k3 :: k4 :: r3 =>
                            if (bs =? 92) && (u =? 117) then
                              match decode_hex4 k1 k2 k3 k4 with
                              | None => None
                              | Some uni2 =>
                                  if is_low_surrogate uni2
                                  then prepend (join_surrogates uni uni2)
                                               (scanstring r3)
                                  else prepend uni (scanstring r2)
                              end
                            else prepend uni (scanstring r2)
                        | _ => prepend uni (scanstring r2)
                        end
                      else prepend uni (scanstring r2)
                  end
              | _ => None
              end
            else
              match unescape e with
              | Some x => prepend x (scanstring r1)
              | None => None
              end
        end
      else if c <? 32 then None
      else prepend c (scanstring r)
  end.

(** The value a matched number stands for. *)
Definition number_value (integer frac exp : pystr) : json :=
  match frac, exp with
  | [], [] => JInt (py_int integer)
  | _, _ => JFloat (float_of_str (integer ++ frac ++ exp))
  end.

(** The atoms of [scan_once]: [null], [true], [false], a number, or one of
    the three float constants. *)
Definition scan_atom (s : pystr) : option (json * pystr) :=
  match strip_prefix (lit "null") s with
  | Some r => Some (JNull, r)
  | None =>
  match strip_prefix (lit "true") s with
  | Some r => Some (JBool true, r)
  | None =>
  match strip_prefix (lit "false") s with
  | Some r => Some (JBool false, r)
  | None =>
  match match_number s with
  | Some (integer, frac, exp, r) => Some (number_value integer frac exp, r)
  | None =>
  match strip_prefix (lit "NaN") s with
  | Some r => Some (JFloat (float_of_str (lit "NaN")), r)
  | None =>
  match strip_prefix (lit "Infinity") s with
  | Some r => Some (JFloat (float_of_str (lit "Infinity")), r)
  | None =>
  match strip_prefix (lit "-Infinity") s with
  | Some r => Some (JFloat (float_of_str (lit "-Infinity")), r)
  | None => None
  end end end end end end end.

(** [scan_once] with [JSONArray] and [JSONObject].  The recursion of the
    decoder is bounded by [fuel]; [json_loads] supplies enough for the
    whole text. *)
Fixpoint scan_once (fuel : nat) (s : pystr) : option (json * pystr) :=
  match fuel with
  | O => None
  | S fuel =>
      match s with
      | [] => None
      | c :: r =>
          if c =? 34 then
            match scanstring r with
            | Some (str, rest) => Some (JStr str, rest)
            | None => None
            end
          else if c =? 123 then
            match skip_ws r with
            | c' :: r' =>
                if c' =? 125 then Some (JObj [], r')
                else
                  match parse_pairs fuel (c' :: r') with
                  | Some (pairs, rest) => Some (JObj (dict pairs), rest)
                  | None => None
                  end
            | [] => None
            end
          else if c =? 91 then
            match skip_ws r with
            | c' :: r' =>
                if c' =? 93 then Some (JArr [], r')
                else
                  match parse_elems fuel (c' :: r') with
                  | Some (vs, rest) => Some (JArr vs, rest)
                  | None => None
                  end
            | [] => None
            end
          else scan_atom s
      end
  end
with parse_elems (fuel : nat) (s : pystr) : option (list json * pystr) :=
  match fuel with
  | O => None
  | S fuel =>
      match scan_once fuel s with
      | None => None
      | Some (v, r) =>
          match skip_ws r with
          | c :: r' =>
              if c =? 93 then Some ([v], r')
              else if c =? 44 then
                match parse_elems fuel (skip_ws r') with
                | Some (vs, rest) => Some (v :: vs, rest)
                | None => None
                end
              else None
          | [] => None
          end
      end
  end
with parse_pairs (fuel : nat) (s : pystr)
  : option (list (pystr * json) * pystr) :=
  match fuel with
  | O => None
  | S fuel =>
      match s with
      | c :: r =>
          if c =? 34 then
            match scanstring r with
            | None => None
            | Some (key, r1) =>
                match skip_ws r1 with
                | c1 :: r2 =>
                    if c1 =? 58 then
                      match scan_once fuel (skip_ws r2) with
                      | None => None
                      | Some (v, r3) =>
                          match skip_ws r3 with
                          | c3 :: r4 =>
                              if c3 =? 125 then Some ([(key, v)], r4)
                              else if c3 =? 44 then
                                match parse_pairs fuel (skip_ws r4) with
                                | Some (ps, rest) => Some ((key, v) :: ps, rest)
                                | None => None
                                end
                              else None
                          | [] => None
                          end
                      end
                    else None
                | [] => None
                end
            end
          else None
      | [] => None
      end
  end.

(** [json.loads(s)]: leading whitespace, one value, trailing whitespace,
    and nothing else; [None] stands for [JSONDecodeError]. *)
Definition json_loads (s : pystr) : option json :=
  let s' := skip_ws s in
  match scan_once (S (length s')) s' with
  | Some (v, rest) =>
      match skip_ws rest with
      | [] => Some v
      | _ :: _ => None
      end
  | None => None
  end.

(** *** Notions the proofs use: values *)

(** A value [json_loads] can have produced: its strings are [str_ok] and
    the keys of each dict are distinct. *)
Fixpoint json_ok (v : json) : bool :=
  match v with
  | JStr s => str_ok s
  | JArr l => forallb json_ok l
  | JObj items =>
      forallb (fun kv => str_ok (fst kv) && json_ok (snd kv)) items
      && bool_decide (NoDup (List.map fst items))
  | _ => true
  end.

(** An item of a dict with a [str_ok] key and a [json_ok] value. *)
Definition item_ok (kv : pystr * json) : bool := str_ok (fst kv) && json_ok (snd kv).

(** Fuel that [scan_once] needs to read the value back. *)
Fixpoint json_size (v : json) : nat :=
  match v with
  | JArr l => S (fold_right (fun x n => S (json_size x + n)) O l)
  | JObj items => S (fold_right (fun kv n => S (json_size (snd kv) + n)) O items)
  | _ => 1
  end.

(** Fuel that [parse_elems] and [parse_pairs] need. *)
Definition elems_size (l : list json) : nat :=
  fold_right (fun x n => S (json_size x + n)) O l.

Definition items_size (items : list (pystr * json)) : nat :=
  fold_right (fun kv n => S (json_size (snd kv) + n)) O items.

(** One item of a dict, as [json_dumps] prints it. *)
Definition item_text (kv : pystr * json) : pystr :=
  encode_basestring_ascii (fst kv) ++ lit ": " ++ json_dumps (snd kv).

(** The first character of a printed value. *)
Definition value_start (c : N) : Prop :=
  is_ws c = false /\ c <> 93 /\ c <> 125.

(** What the round trip says of one value. *)
Definition reads_back (v : json) : Prop :=
  forall (fuel : nat) (rest : pystr),
    (json_size v <= fuel)%nat -> number_stop rest = true ->
    scan_once fuel (json_dumps v ++ rest) = Some (v, rest).

End Json.

(** The four shapes [escape_char] prints a character in. *)
Inductive escape_shape (c : N) : pystr -> Prop :=
| EscShort e : e <> 117 -> unescape e = Some c -> escape_shape c [92; e]
| EscPlain : c <> 34 -> c <> 92 -> 32 <= c -> escape_shape c [c]
| EscU : c < 0x10000 -> escape_shape c (92 :: 117 :: hex4 c)
| EscPair : 0x10000 <= c ->
    escape_shape c ((92 :: 117 :: hex4 (high_of c)) ++ (92 :: 117 :: hex4 (low_of c))).

(** [scanned s str rest]: after the opening quote, the text [s] holds the
    string [str], its closing quote, and then [rest]. *)
Inductive scanned : pystr -> pystr -> pystr -> Prop :=
| ScanEnd r : scanned (34 :: r) [] r
| ScanRaw c r str rest :
    c <> 34 -> c <> 92 -> 32 <= c ->
    scanned r str rest -> scanned (c :: r) (c :: str) rest
| ScanShort e x r str rest :
    e <> 117 -> unescape e = Some x ->
    scanned r str rest -> scanned (92 :: e :: r) (x :: str) rest
| ScanU h1 h2 h3 h4 uni r2 str rest :
    decode_hex4 h1 h2 h3 h4 = Some uni ->
    (is_high_surrogate uni = true -> starts_low_escape r2 = false) ->
    scanned r2 str rest ->
    scanned (92 :: 117 :: h1 :: h2 :: h3 :: h4 :: r2) (uni :: str) rest
| ScanPair h1 h2 h3 h4 k1 k2 k3 k4 uni uni2 r3 str rest :
    decode_hex4 h1 h2 h3 h4 = Some uni -> is_high_surrogate uni = true ->
    decode_hex4 k1 k2 k3 k4 = Some uni2 -> is_low_surrogate uni2 = true ->
    scanned r3 str rest ->
    scanned (92 :: 117 :: h1 :: h2 :: h3 :: h4 :: 92 :: 117 :: k1 :: k2 :: k3 :: k4 :: r3)
            (join_surrogates uni uni2 :: str) rest.

(** ** The plugin store and the manager *)

Section Manager.
Context {PF : PyFloat}.

(** What [get_plugin_descriptor_file] hands on: the [--descriptorfile]
    argument as it was typed (a [str], the option has [type=str]), or a
    [ContentFile] with a name and a byte content. *)
Inductive descriptor : Type :=
| PathStr (path : pystr)
| ContentFile (fname : pystr) (content : list Byte.byte).

(** The [data] dict given to [PluginSerializer]. *)
Record plugin_data : Type := {
  data_name : pystr;
  data_public_repo : pystr;
  data_dock_image : pystr;
  data_descriptor_file : descriptor;
  data_version : json
}.

(** A row of the plugin table (the fields of a [Plugin] instance). *)
Record Plugin : Type := {
  name : pystr;
  public_repo : pystr;
  dock_image : pystr;
  descriptor_file : descriptor;
  version : json;
  creation_date : Z;
  modification_date : Z
}.

(** The database: plugin rows by primary key, the rows of the
    many-to-many [owner] relation grouped by plugin (users are named by
    their unique [username]), the registered users, and the next primary
    key the plugin table hands out. *)
Record DB : Type := {
  plugins : gmap Z Plugin;
  plugin_owner : gmap Z (gset pystr);
  users : gset pystr;
  next_id : Z
}.

(** [plugin.owner.all()] *)
Definition owners_of (db : DB) (pk : Z) : gset pystr :=
  default ∅ (plugin_owner db !! pk).

Inductive error : Type :=
| UsageError          (* parser.error: usage message, SystemExit(2) *)
| NameError           (* get_plugin: no plugin with that id *)
| ValidationError     (* the serializer rejects the data *)
| UserDoesNotExist    (* User.objects.get *)
| OwnerNotFoundError  (* validate_new_owner *)
| JSONDecodeError     (* json.loads *)
| TypeError           (* json.loads(None) *)
| UnicodeEncodeError  (* str.encode *)
| MissingVersionError.

Inductive result (A : Type) : Type :=
| Ok (a : A)
| Err (e : error).
#[global] Arguments Ok {A} a.
#[global] Arguments Err {A} e.

(** Commands run against the database; an exception leaves the database
    as the statements before it made it. *)
Definition M (A : Type) : Type := DB -> result A * DB.

Definition ret {A} (a : A) : M A := fun db => (Ok a, db).
Definition raise {A} (e : error) : M A := fun db => (Err e, db).
Definition bind {A B} (m : M A) (k : A -> M B) : M B :=
  fun db =>
    match m db with
    | (Ok a, db') => k a db'
    | (Err e, db') => (Err e, db')
    end.
Definition lift {A} (r : result A) : M A := fun db => (r, db).

Notation "'do' x <- m ; k" := (bind m (fun x => k))
  (at level 10, x name, m at level 100, k at level 200).
Notation "'exec' m ; k" := (bind m (fun _ => k))
  (at level 10, m at level 100, k at level 200).

(** *** The namespace [parse_args] returns *)

Record add_args : Type := {
  add_name : pystr;
  add_owner : pystr;
  add_publicrepo : pystr;
  add_dockerimage : pystr;
  descriptorfile : option pystr;
  descriptorstring : option pystr
}.

Record modify_args : Type := {
  modify_id : Z;
  modify_publicrepo : pystr;
  modify_dockerimage : pystr;
  newowner : option pystr
}.

Record remove_args : Type := {
  remove_id : Z
}.

(** A command line, by subcommand: the positional arguments and the
    options that were given ([None]: not given).  [parse_args] returns it
    as the namespace, unless both options of the mutually exclusive group
    were given. *)
Inductive options : Type :=
| add (a : add_args)
| modify (m : modify_args)
| remove (r : remove_args).

Definition parse_args (argv : options) : result options :=
  match argv with
  | add a =>
      match descriptorfile a, descriptorstring a with
      | Some _, Some _ => Err UsageError
      | _, _ => Ok argv
      end
  | _ => Ok argv
  end.

(** *** Collaborators that are not part of the manager *)

(** [PluginSerializer(instance, data=data).is_valid()]: the database, the
    primary key of the instance when one is given, and the data. *)
Variable is_valid : DB -> option Z -> plugin_data -> bool.

(** Modelled from the spec: [PluginSerializer.is_valid] (the serializer is
    not among the sources).  "Required fields: name, public_repo,
    docker_image, descriptor_file, version.  Missing or empty triggers
    ValidationError naming the field."  One validator the manager can be
    run with. *)
Definition required_fields (db : DB) (instance : option Z) (data : plugin_data) : bool :=
  negb (bool_decide (data_name data = []))
  && negb (bool_decide (data_public_repo data = []))
  && negb (bool_decide (data_dock_image data = []))
  && match data_descriptor_file data with
     | PathStr p => negb (bool_decide (p = []))
     | ContentFile n _ => negb (bool_decide (n = []))
     end
  && match data_version data with
     | JNull => false
     | JStr [] => false
     | _ => true
     end.

(** Modelled from the spec:
    [PluginSerializer.get_plugin_version_from_app_representation] (not
    among the sources).  "Version extraction: parses the resolved blob's
    JSON content and returns a version field from its top-level
    representation; fails with MissingVersionError if absent."  A bare
    path string is not a blob and has no content to parse. *)
Definition get_plugin_version_from_app_representation (df : descriptor)
  : result json :=
  match df with
  | PathStr _ => Err ValidationError
  | ContentFile _ content =>
      match decode content ≫= json_loads with
      | None => Err ValidationError
      | Some (JObj items) =>
          match dict_get (lit "version") items with
          | Some v => Ok v
          | None => Err MissingVersionError
          end
      | Some _ => Err MissingVersionError
      end
  end.

(** Modelled from the spec: [PluginSerializer.validate_new_owner] (not
    among the sources).  "Owner resolution: the named owner must already
    exist in the User collaborator store; absence fails with
    OwnerNotFoundError." *)
Definition validate_new_owner (username : pystr) : M pystr :=
  fun db =>
    if bool_decide (username ∈ users db) then (Ok username, db)
    else (Err OwnerNotFoundError, db).

(** [User.objects.get(username=...)] *)
Definition User_objects_get (username : pystr) : M pystr :=
  fun db =>
    if bool_decide (username ∈ users db) then (Ok username, db)
    else (Err UserDoesNotExist, db).

(** [plg_serializer.is_valid(raise_exception=True)] *)
Definition serializer_is_valid (instance : option Z) (data : plugin_data) : M unit :=
  fun db =>
    if is_valid db instance data then (Ok tt, db) else (Err ValidationError, db).

(** The name under which the file storage keeps a blob that is saved
    under a given name: the name itself when the storage has no file of
    that name, another name when it is taken.  The files of the storage
    are not in the database; the name it picks, at the database the save
    runs on, is a parameter. *)
Variable storage_name : DB -> pystr -> pystr.

(** The descriptor as a new row holds it: a blob is in the storage under
    the name the storage picked, with the content it was given; a string
    is kept as the name of a file, and nothing is stored. *)
Definition saved_as (db : DB) (df : descriptor) : descriptor :=
  match df with
  | PathStr path => PathStr path
  | ContentFile fname content => ContentFile (storage_name db fname) content
  end.

(** [plg_serializer.save(owner=[owner])] without an instance: a new row
    under a fresh primary key, with the given owners; the descriptor goes
    to the file storage. *)
Definition serializer_create (now : Z) (data : plugin_data) (owners : list pystr)
  : M Z :=
  fun db =>
    let pk := next_id db in
    let row := {| name := data_name data;
                  public_repo := data_public_repo data;
                  dock_image := data_dock_image data;
                  descriptor_file := saved_as db (data_descriptor_file data);
                  version := data_version data;
                  creation_date := now;
                  modification_date := now |} in
    (Ok pk,
     {| plugins := <[pk := row]> (plugins db);
        plugin_owner := <[pk := list_to_set owners]> (plugin_owner db);
        users := users db;
        next_id := (pk + 1)%Z |}).

(** [instance.save()]: the row of the instance takes its fields. *)
Definition Plugin_save (pk : Z) (plugin : Plugin) : M unit :=
  fun db =>
    (Ok tt,
     {| plugins := <[pk := plugin]> (plugins db);
        plugin_owner := plugin_owner db;
        users := users db;
        next_id := next_id db |}).

(** [plg_serializer.save()] with an instance: the instance takes the
    validated data and is saved. *)
Definition serializer_update (pk : Z) (plugin : Plugin) (data : plugin_data)
  : M Plugin :=
  let plugin' := {| name := data_name data;
                    public_repo := data_public_repo data;
                    dock_image := data_dock_image data;
                    descriptor_file := data_descriptor_file data;
                    version := data_version data;
                    creation_date := creation_date plugin;
                    modification_date := modification_date plugin |} in
  exec Plugin_save pk plugin' ; ret plugin'.

(** [plugin.owner.values('username')] *)
Definition owner_values (pk : Z) : M (gset pystr) :=
  fun db => (Ok (owners_of db pk), db).

(** [plugin.owner.all()] *)
Definition owner_all (pk : Z) : M (list pystr) :=
  fun db => (Ok (elements (owners_of db pk)), db).

(** [plugin.owner.set(owners)] *)
Definition owner_set (pk : Z) (owners : list pystr) : M unit :=
  fun db =>
    (Ok tt,
     {| plugins := plugins db;
        plugin_owner := <[pk := list_to_set owners]> (plugin_owner db);
        users := users db;
        next_id := next_id db |}).

(** [plugin.delete()]: the row and its rows of the owner relation. *)
Definition Plugin_delete (pk : Z) : M unit :=
  fun db =>
    (Ok tt,
     {| plugins := delete pk (plugins db);
        plugin_owner := delete pk (plugin_owner db);
        users := users db;
        next_id := next_id db |}).

(** *** [PluginManager] *)

Definition get_plugin (id : Z) : M Plugin :=
  fun db =>
    match plugins db !! id with
    | Some plugin => (Ok plugin, db)
    | None => (Err NameError, db)
    end.

Definition get_plugin_descriptor_file (args : add_args) : result descriptor :=
  if truthy (descriptorfile args) then
    match descriptorfile args with
    | Some f => Ok (PathStr f)
    | None => Err TypeError  (* not reached: [None] is not truthy *)
    end
  else
    match descriptorstring args with
    | None => Err TypeError
    | Some s =>
        match json_loads s with
        | None => Err JSONDecodeError
        | Some app_repr =>
            match encode (json_dumps app_repr) with
            | None => Err UnicodeEncodeError
            | Some bytes => Ok (ContentFile (add_name args ++ lit ".json") bytes)
            end
        end
    end.

Definition add_plugin (now : Z) (args : add_args) : M Z :=
  do df <- lift (get_plugin_descriptor_file args) ;
  do version <- lift (get_plugin_version_from_app_representation df) ;
  let data := {| data_name := add_name args;
                 data_public_repo := add_publicrepo args;
                 data_dock_image := add_dockerimage args;
                 data_descriptor_file := df;
                 data_version := version |} in
  exec serializer_is_valid None data ;
  do owner <- User_objects_get (add_owner args) ;
  serializer_create now data [owner].

Definition modify_plugin (now : Z) (args : modify_args) : M unit :=
  let pk := modify_id args in
  do plugin <- get_plugin pk ;
  let data := {| data_name := name plugin;
                 data_public_repo := modify_publicrepo args;
                 data_dock_image := modify_dockerimage args;
                 data_descriptor_file := descriptor_file plugin;
                 data_version := version plugin |} in
  exec serializer_is_valid (Some pk) data ;
  do plugin <- serializer_update pk plugin data ;
  exec (if truthy (newowner args) then
          match newowner args with
          | Some username =>
              do owners <- owner_values pk ;
              if bool_decide (username ∈ owners) then ret tt
              else
                do new_owner <- validate_new_owner username ;
                do owners <- owner_all pk ;
                owner_set pk (owners ++ [new_owner])
          | None => ret tt
          end
        else ret tt) ;
  Plugin_save pk {| name := name plugin;
                    public_repo := public_repo plugin;
                    dock_image := dock_image plugin;
                    descriptor_file := descriptor_file plugin;
                    version := version plugin;
                    creation_date := creation_date plugin;
                    modification_date := now |}.

Definition remove_plugin (args : remove_args) : M unit :=
  do plugin <- get_plugin (remove_id args) ;
  Plugin_delete (remove_id args).

(** [read_plugin_descriptor_file]: the JSON value in the file at a path of
    the file system [fs].  Nothing in the manager calls it. *)
Definition read_plugin_descriptor_file (fs : pystr -> option (list Byte.byte))
    (descriptor_file_path : pystr) : option json :=
  match fs descriptor_file_path with
  | Some content =>
      match decode content with
      | Some text => json_loads text
      | None => None
      end
  | None => None
  end.

Definition run (now : Z) (argv : options) : M unit :=
  do opts <- lift (parse_args argv) ;
  match opts with
  | add a =>
      if negb (truthy (descriptorfile a)) && negb (truthy (descriptorstring a))
      then raise UsageError
      else (exec add_plugin now a ; ret tt)
  | modify m => modify_plugin now m
  | remove r => remove_plugin r
  end.

(** *** Notions the proofs use: rows and databases *)

(** The row [modify] writes first: the old row with the new repository
    and image. *)
Definition with_repo_image (p : Plugin) (args : modify_args) : Plugin :=
  {| name := name p;
     public_repo := modify_publicrepo args;
     dock_image := modify_dockerimage args;
     descriptor_file := descriptor_file p;
     version := version p;
     creation_date := creation_date p;
     modification_date := modification_date p |}.

(** The row [modify] writes last: the modification date is stamped. *)
Definition with_modification_date (p : Plugin) (now : Z) : Plugin :=
  {| name := name p;
     public_repo := public_repo p;
     dock_image := dock_image p;
     descriptor_file := descriptor_file p;
     version := version p;
     creation_date := creation_date p;
     modification_date := now |}.

(** The [data] dict [modify] builds. *)
Definition modify_data (p : Plugin) (args : modify_args) : plugin_data :=
  {| data_name := name p;
     data_public_repo := modify_publicrepo args;
     data_dock_image := modify_dockerimage args;
     data_descriptor_file := descriptor_file p;
     data_version := version p |}.

(** The database with another plugin table, or another owner relation. *)
Definition set_plugins (db : DB) (m : gmap Z Plugin) : DB :=
  {| plugins := m; plugin_owner := plugin_owner db; users := users db;
     next_id := next_id db |}.

Definition set_owners (db : DB) (m : gmap Z (gset pystr)) : DB :=
  {| plugins := plugins db; plugin_owner := m; users := users db;
     next_id := next_id db |}.

(** The new owner [modify] has to add, if any: the [--newowner] argument
    when it is given, not empty, and not yet an owner. *)
Definition owner_to_add (db : DB) (args : modify_args) : option pystr :=
  match newowner args with
  | Some (c :: u) =>
      if bool_decide ((c :: u) ∈ owners_of db (modify_id args)) then None
      else Some (c :: u)
  | _ => None
  end.

(** The text of the descriptor an add command points at: the content of
    the named file in the file system [fs], or the string given. *)
Definition descriptor_source (fs : pystr -> option (list Byte.byte)) (args : add_args)
  : option pystr :=
  if truthy (descriptorfile args) then
    match descriptorfile args with
    | Some path =>
        match fs path with
        | Some content => decode content
        | None => None
        end
    | None => None
    end
  else descriptorstring args.

(** The version a descriptor text declares at its top level. *)
Definition declared_version (text : pystr) : option json :=
  match json_loads text with
  | Some (JObj items) => dict_get (lit "version") items
  | _ => None
  end.

(** Every plugin row has an owner. *)
Definition owned (db : DB) : Prop :=
  forall pk, is_Some (plugins db !! pk) -> owners_of db pk <> ∅.

(** Every owner of a plugin is a registered user. *)
Definition registered (db : DB) : Prop :=
  forall pk u, u ∈ owners_of db pk -> u ∈ users db.

(** The add command with another [--descriptorstring]. *)
Definition with_descriptorstring (a : add_args) (s : pystr) : add_args :=
  {| add_name := add_name a;
     add_owner := add_owner a;
     add_publicrepo := add_publicrepo a;
     add_dockerimage := add_dockerimage a;
     descriptorfile := descriptorfile a;
     descriptorstring := Some s |}.

End Manager.

(** ** A small store to run the manager on *)

(** A double-quoted ASCII literal, as it stands in a JSON text. *)
Definition quoted (s : string) : pystr := 34 :: lit s ++ [34].

Module Example.

Definition simplefsapp : @Plugin nan_float :=
  {| name := lit "simplefsapp";
     public_repo := lit "https://github.com/x/simplefsapp";
     dock_image := lit "fnndsc/simplefsapp";
     descriptor_file := ContentFile (lit "simplefsapp.json") [];
     version := JStr (lit "1.0");
     creation_date := 100;
     modification_date := 100 |}.

(** One plugin, owned by [cube]; two registered users. *)
Definition store : @DB nan_float :=
  {| plugins := {[ 1%Z := simplefsapp ]};
     plugin_owner := {[ 1%Z := {[ lit "cube" ]} ]};
     users := {[ lit "cube"; lit "chris" ]};
     next_id := 2 |}.

Definition add_string : add_args :=
  {| add_name := lit "pacsquery";
     add_owner := lit "cube";
     add_publicrepo := lit "https://github.com/x/pacsquery";
     add_dockerimage := lit "fnndsc/pacsquery";
     descriptorfile := None;
     descriptorstring :=
       Some (lit "{ " ++ quoted "version" ++ lit " : " ++ quoted "1.0" ++ lit ", "
             ++ quoted "type" ++ lit ": " ++ quoted "ds" ++ lit " }") |}.

(** A descriptor whose version is written as an escaped high surrogate
    followed by a low surrogate that is not escaped (a [str] can hold
    one: a byte 0x80 on the command line is read as U+DC80). *)
Definition surrogates_text : pystr :=
  lit "{" ++ quoted "version" ++ lit ": "
  ++ 34 :: lit "\ud83d" ++ [0xDC80; 34] ++ lit "}".

Definition add_surrogates : add_args :=
  {| add_name := lit "pacsquery";
     add_owner := lit "cube";
     add_publicrepo := lit "https://github.com/x/pacsquery";
     add_dockerimage := lit "fnndsc/pacsquery";
     descriptorfile := None;
     descriptorstring := Some surrogates_text |}.

Definition add_file : add_args :=
  {| add_name := lit "pacsquery";
     add_owner := lit "cube";
     add_publicrepo := lit "https://github.com/x/pacsquery";
     add_dockerimage := lit "fnndsc/pacsquery";
     descriptorfile := Some (lit "/tmp/pacsquery.json");
     descriptorstring := None |}.

Definition add_both : add_args :=
  {| add_name := lit "pacsquery";
     add_owner := lit "cube";
     add_publicrepo := lit "https://github.com/x/pacsquery";
     add_dockerimage := lit "fnndsc/pacsquery";
     descriptorfile := Some (lit "/tmp/pacsquery.json");
     descriptorstring := Some (lit "{}") |}.

(** A file storage in which every name is free: a blob keeps its name. *)
Definition keep_names : @DB nan_float -> pystr -> pystr := fun _ fname => fname.

(** A file storage in which the name [pacsquery.json] is taken. *)
Definition pacsquery_taken : @DB nan_float -> pystr -> pystr :=
  fun _ fname =>
    if bool_decide (fname = lit "pacsquery.json") then lit "pacsquery_v5PiWWO.json"
    else fname.

Definition modify_with (owner : option pystr) : modify_args :=
  {| modify_id := 1;
     modify_publicrepo := lit "https://github.com/y/simplefsapp";
     modify_dockerimage := lit "fnndsc/simplefsapp:2";
     newowner := owner |}.

End Example.

(** Further command lines. *)
Module Commands.

(** An add command for an owner who is not registered. *)
Definition add_ghost : add_args :=
  {| add_name := lit "pacsquery";
     add_owner := lit "ghost";
     add_publicrepo := lit "https://github.com/x/pacsquery";
     add_dockerimage := lit "fnndsc/pacsquery";
     descriptorfile := None;
     descriptorstring := Some (lit "{" ++ quoted "version" ++ lit ": 1}") |}.

(** An add command whose descriptor string is cut short. *)
Definition add_bad : add_args :=
  {| add_name := lit "pacsquery";
     add_owner := lit "cube";
     add_publicrepo := lit "https://github.com/x/pacsquery";
     add_dockerimage := lit "fnndsc/pacsquery";
     descriptorfile := None;
     descriptorstring := Some (lit "{" ++ quoted "version" ++ lit ": ") |}.

(** An add command with an empty [--descriptorstring]. *)
Definition add_empty : add_args :=
  {| add_name := lit "pacsquery";
     add_owner := lit "cube";
     add_publicrepo := lit "https://github.com/x/pacsquery";
     add_dockerimage := lit "fnndsc/pacsquery";
     descriptorfile := None;
     descriptorstring := Some [] |}.

End Commands.

(** * Facts *)

(** ** Hexadecimal escapes *)

Lemma hex_val_hex_char (d : N) : d < 16 -> hex_val (hex_char d) = Some d.
Proof.
  intros H. unfold hex_char, hex_val.
  destruct (d <? 10) eqn:E.
  - apply N.ltb_lt in E.
    replace ((48 <=? 48 + d) && (48 + d <=? 57)) with true.
    + f_equal. lia.
    + symmetry. apply andb_true_iff. split; apply N.leb_le; lia.
  - apply N.ltb_ge in E.
    replace ((48 <=? 87 + d) && (87 + d <=? 57)) with false.
    + replace ((97 <=? 87 + d) && (87 + d <=? 102)) with true.
      * f_equal. lia.
      * symmetry. apply andb_true_iff. split; apply N.leb_le; lia.
    + symmetry. apply andb_false_iff. right. apply N.leb_gt. lia.
Qed.

Lemma hex4_digits (n : N) :
  n < 65536 ->
  n = (n / 4096 mod 16) * 4096 + (n / 256 mod 16) * 256
      + (n / 16 mod 16) * 16 + n mod 16.
Proof.
  intros H.
  pose proof (N.div_mod n 16 ltac:(lia)).
  pose proof (N.div_mod (n / 16) 16 ltac:(lia)).
  pose proof (N.div_mod (n / 16 / 16) 16 ltac:(lia)).
  replace (n / 256) with (n / 16 / 16) by (rewrite N.Div0.div_div; reflexivity).
  replace (n / 4096) with (n / 16 / 16 / 16)
    by (rewrite !N.Div0.div_div; reflexivity).
  assert (n / 16 / 16 / 16 < 16).
  { rewrite !N.Div0.div_div. apply N.Div0.div_lt_upper_bound. simpl. lia. }
  rewrite (N.mod_small (n / 16 / 16 / 16) 16) by assumption.
  lia.
Qed.

Lemma decode_hex4_hex4 (n : N) :
  n < 65536 ->
  exists a b c d, hex4 n = [a; b; c; d] /\ decode_hex4 a b c d = Some n.
Proof.
  intros H. unfold hex4. do 4 eexists. split; [reflexivity|].
  unfold decode_hex4.
  rewrite !hex_val_hex_char by (apply N.mod_lt; lia).
  f_equal. symmetry. apply hex4_digits. exact H.
Qed.

(** ** Surrogate pairs *)

Lemma lor_disjoint (k m x : N) : x < 2 ^ m -> N.lor (k * 2 ^ m) x = k * 2 ^ m + x.
Proof.
  intros H.
  assert (L : N.land (k * 2 ^ m) x = 0).
  { apply N.bits_inj. intros i. rewrite N.land_spec, N.bits_0.
    destruct (N.lt_ge_cases i m) as [Hi | Hi].
    - rewrite N.mul_pow2_bits_low by assumption. reflexivity.
    - rewrite <- (N.mod_small x (2 ^ m)) by assumption.
      rewrite N.mod_pow2_bits_high by assumption. apply andb_false_r. }
  rewrite N.add_nocarry_lxor by assumption.
  symmetry. apply N.lxor_lor. assumption.
Qed.

Lemma high_of_eq (c : N) : high_of c = 0xD800 + ((c - 0x10000) / 1024) mod 1024.
Proof.
  unfold high_of. rewrite N.shiftr_div_pow2.
  change 0x3FF with (N.ones 10). rewrite N.land_ones.
  change 0xD800 with (54 * 2 ^ 10).
  apply lor_disjoint. apply N.mod_lt. discriminate.
Qed.

Lemma low_of_eq (c : N) : low_of c = 0xDC00 + (c - 0x10000) mod 1024.
Proof.
  unfold low_of. change 0x3FF with (N.ones 10). rewrite N.land_ones.
  change 0xDC00 with (55 * 2 ^ 10).
  apply lor_disjoint. apply N.mod_lt. discriminate.
Qed.

Lemma high_of_range (c : N) : 0xD800 <= high_of c <= 0xDBFF.
Proof.
  rewrite high_of_eq.
  pose proof (N.mod_lt ((c - 0x10000) / 1024) 1024 ltac:(discriminate)) as H.
  revert H. generalize (((c - 0x10000) / 1024) mod 1024). intros n H. lia.
Qed.

Lemma low_of_range (c : N) : 0xDC00 <= low_of c <= 0xDFFF.
Proof.
  rewrite low_of_eq.
  pose proof (N.mod_lt (c - 0x10000) 1024 ltac:(discriminate)) as H.
  revert H. generalize ((c - 0x10000) mod 1024). intros n H. lia.
Qed.

Lemma join_surrogates_of (c : N) :
  0x10000 <= c -> c < 0x110000 -> join_surrogates (high_of c) (low_of c) = c.
Proof.
  intros H1 H2. unfold join_surrogates.
  rewrite high_of_eq, low_of_eq.
  assert (Hc : c = 0x10000 + (c - 0x10000)) by lia.
  revert Hc. generalize (c - 0x10000). intros n Hc.
  assert (Hn : n < 1048576) by lia.
  assert (Hd : n / 1024 < 1024).
  { apply N.Div0.div_lt_upper_bound. simpl. lia. }
  rewrite (N.mod_small (n / 1024) 1024) by assumption.
  rewrite (N.add_comm _ (n / 1024)), N.add_sub.
  rewrite (N.add_comm _ (n mod 1024)), N.add_sub.
  rewrite N.shiftl_mul_pow2.
  rewrite lor_disjoint by (apply N.mod_lt; discriminate).
  pose proof (N.div_mod n 1024 ltac:(discriminate)).
  change (2 ^ 10) with 1024. lia.
Qed.

Lemma high_of_is_high (c : N) : is_high_surrogate (high_of c) = true.
Proof.
  pose proof (high_of_range c). unfold is_high_surrogate.
  apply andb_true_iff; split; apply N.leb_le; lia.
Qed.

Lemma high_of_not_low (c : N) : is_low_surrogate (high_of c) = false.
Proof.
  pose proof (high_of_range c). unfold is_low_surrogate.
  apply andb_false_iff; left; apply N.leb_gt; lia.
Qed.

Lemma low_of_is_low (c : N) : is_low_surrogate (low_of c) = true.
Proof.
  pose proof (low_of_range c). unfold is_low_surrogate.
  apply andb_true_iff; split; apply N.leb_le; lia.
Qed.

(** ** Strings: [scanstring] reads back what [encode_basestring_ascii] wrote *)

Lemma scanstring_quote (r : pystr) : scanstring (34 :: r) = Some ([], r).
Proof. reflexivity. Qed.

Lemma scanstring_plain (c : N) (r : pystr) :
  c <> 34 -> c <> 92 -> 32 <= c ->
  scanstring (c :: r) = prepend c (scanstring r).
Proof.
  intros H1 H2 H3. cbn [scanstring].
  apply N.eqb_neq in H1, H2. rewrite H1, H2.
  assert (H4 : (c <? 32) = false) by (apply N.ltb_ge; exact H3).
  rewrite H4. reflexivity.
Qed.

Lemma scanstring_short (e x : N) (r : pystr) :
  e <> 117 -> unescape e = Some x ->
  scanstring (92 :: e :: r) = prepend x (scanstring r).
Proof.
  intros H1 H2. cbn [scanstring]. change (92 =? 34) with false.
  change (92 =? 92) with true. cbv iota.
  apply N.eqb_neq in H1. rewrite H1, H2. reflexivity.
Qed.

Lemma scanstring_u (h1 h2 h3 h4 uni : N) (r2 : pystr) :
  decode_hex4 h1 h2 h3 h4 = Some uni ->
  is_high_surrogate uni = false \/ no_low_escape r2 ->
  scanstring (92 :: 117 :: h1 :: h2 :: h3 :: h4 :: r2) = prepend uni (scanstring r2).
Proof.
  intros Hd Hc. cbn [scanstring]. change (92 =? 34) with false.
  change (92 =? 92) with true. change (117 =? 117) with true. cbv iota.
  rewrite Hd. destruct (is_high_surrogate uni) eqn:Hh; [|reflexivity].
  destruct Hc as [Hc | Hc]; [discriminate|].
  destruct r2 as [|bs [|u [|k1 [|k2 [|k3 [|k4 r3]]]]]]; try reflexivity.
  destruct ((bs =? 92) && (u =? 117)) eqn:E; [|reflexivity].
  apply andb_true_iff in E. destruct E as [E1 E2].
  apply N.eqb_eq in E1, E2. subst bs u.
  destruct (Hc _ _ _ _ _ eq_refl) as (uni2 & Hd2 & Hl).
  rewrite Hd2, Hl. reflexivity.
Qed.

Lemma scanstring_pair (h1 h2 h3 h4 k1 k2 k3 k4 uni uni2 : N) (r3 : pystr) :
  decode_hex4 h1 h2 h3 h4 = Some uni -> is_high_surrogate uni = true ->
  decode_hex4 k1 k2 k3 k4 = Some uni2 -> is_low_surrogate uni2 = true ->
  scanstring (92 :: 117 :: h1 :: h2 :: h3 :: h4 :: 92 :: 117 :: k1 :: k2 :: k3 :: k4 :: r3)
  = prepend (join_surrogates uni uni2) (scanstring r3).
Proof.
  intros Hd Hh Hd2 Hl. cbn [scanstring]. change (92 =? 34) with false.
  change (92 =? 92) with true. change (117 =? 117) with true. cbv iota.
  rewrite Hd, Hh. cbn [andb]. rewrite Hd2, Hl. reflexivity.
Qed.

Lemma escape_char_shape (c : N) : escape_shape c (escape_char c).
Proof.
  unfold escape_char.
  destruct (c =? 34) eqn:E1.
  { apply N.eqb_eq in E1; subst. apply (EscShort 34 34); [discriminate|reflexivity]. }
  destruct (c =? 92) eqn:E2.
  { apply N.eqb_eq in E2; subst. apply (EscShort 92 92); [discriminate|reflexivity]. }
  destruct (c =? 10) eqn:E3.
  { apply N.eqb_eq in E3; subst. apply (EscShort 10 110); [discriminate|reflexivity]. }
  destruct (c =? 13) eqn:E4.
  { apply N.eqb_eq in E4; subst. apply (EscShort 13 114); [discriminate|reflexivity]. }
  destruct (c =? 9) eqn:E5.
  { apply N.eqb_eq in E5; subst. apply (EscShort 9 116); [discriminate|reflexivity]. }
  destruct (c =? 12) eqn:E6.
  { apply N.eqb_eq in E6; subst. apply (EscShort 12 102); [discriminate|reflexivity]. }
  destruct (c =? 8) eqn:E7.
  { apply N.eqb_eq in E7; subst. apply (EscShort 8 98); [discriminate|reflexivity]. }
  apply N.eqb_neq in E1, E2.
  destruct ((32 <=? c) && (c <=? 126)) eqn:E8.
  { apply andb_true_iff in E8. destruct E8 as [E8 _]. apply N.leb_le in E8.
    apply EscPlain; assumption. }
  destruct (c <? 65536) eqn:E9.
  { apply N.ltb_lt in E9. apply EscU. exact E9. }
  apply N.ltb_ge in E9. apply EscPair. exact E9.
Qed.

Lemma escape_char_no_low (c : N) (t : pystr) :
  is_low_surrogate c = false -> no_low_escape (escape_char c ++ t).
Proof.
  intros Hl k1 k2 k3 k4 r3 Heq.
  destruct (escape_char_shape c) as [e He Hu | H1 H2 H3 | Hc | Hc].
  - simpl in Heq. congruence.
  - simpl in Heq. congruence.
  - destruct (decode_hex4_hex4 c Hc) as (a & b & x & d & Hh & Hd).
    rewrite Hh in Heq. simpl in Heq. injection Heq as -> -> -> -> _.
    exists c. split; assumption.
  - assert (Hr : high_of c < 65536) by (pose proof (high_of_range c); lia).
    destruct (decode_hex4_hex4 (high_of c) Hr) as (a & b & x & d & Hh & Hd).
    rewrite Hh in Heq. simpl in Heq. injection Heq as -> -> -> -> _.
    exists (high_of c). split; [assumption | apply high_of_not_low].
Qed.

Lemma no_low_escape_quote (t : pystr) : no_low_escape (34 :: t).
Proof. intros k1 k2 k3 k4 r3 Heq. discriminate. Qed.

Lemma no_low_escape_tail (s rest : pystr) :
  match s with c2 :: _ => is_low_surrogate c2 | [] => false end = false ->
  no_low_escape (flat_map escape_char s ++ 34 :: rest).
Proof.
  destruct s as [|c2 s]; intros H.
  - apply no_low_escape_quote.
  - cbn [flat_map]. rewrite <- app_assoc. apply escape_char_no_low. exact H.
Qed.

Lemma scanstring_escaped (s rest : pystr) :
  str_ok s = true ->
  scanstring (flat_map escape_char s ++ 34 :: rest) = Some (s, rest).
Proof.
  induction s as [|c s IH]; intros Hok.
  - reflexivity.
  - cbn [str_ok] in Hok.
    apply andb_true_iff in Hok. destruct Hok as [Hok Hs].
    apply andb_true_iff in Hok. destruct Hok as [Hcp Hpair].
    specialize (IH Hs). apply N.ltb_lt in Hcp.
    cbn [flat_map]. rewrite <- app_assoc.
    destruct (escape_char_shape c) as [e He Hu | H1 H2 H3 | Hc | Hc].
    + cbn [app]. rewrite (scanstring_short e c) by assumption.
      rewrite IH. reflexivity.
    + cbn [app]. rewrite scanstring_plain by assumption.
      rewrite IH. reflexivity.
    + destruct (decode_hex4_hex4 c Hc) as (a & b & x & d & Hh & Hd).
      rewrite Hh. cbn [app].
      rewrite (scanstring_u a b x d c) ; [rewrite IH; reflexivity | exact Hd |].
      destruct (is_high_surrogate c) eqn:Hh'; [right|left; reflexivity].
      apply no_low_escape_tail.
      cbn [andb negb] in Hpair. apply negb_true_iff in Hpair. exact Hpair.
    + assert (Hr : high_of c < 65536) by (pose proof (high_of_range c); lia).
      assert (Hr' : low_of c < 65536) by (pose proof (low_of_range c); lia).
      destruct (decode_hex4_hex4 (high_of c) Hr) as (a & b & x & d & Hh & Hd).
      destruct (decode_hex4_hex4 (low_of c) Hr') as (a' & b' & x' & d' & Hh2 & Hd2).
      rewrite Hh, Hh2. cbn [app].
      rewrite (scanstring_pair a b x d a' b' x' d' (high_of c) (low_of c));
        try assumption; try apply high_of_is_high; try apply low_of_is_low.
      rewrite IH. rewrite join_surrogates_of by assumption. reflexivity.
Qed.

Lemma scan_encoded_string (s rest : pystr) :
  str_ok s = true ->
  scanstring (tl (encode_basestring_ascii s) ++ rest) = Some (s, rest).
Proof.
  intros H. unfold encode_basestring_ascii. cbn [tl].
  rewrite <- app_assoc. apply scanstring_escaped. exact H.
Qed.

(** ** Integers: the number pattern reads back what [int_repr] wrote *)

Lemma uint_of_chars_chars (d : uint) : uint_of_chars (uint_chars d) = d.
Proof.
  induction d as [|d IH|d IH|d IH|d IH|d IH|d IH|d IH|d IH|d IH|d IH];
    cbn [uint_chars uint_of_chars]; [reflexivity | rewrite IH; reflexivity ..].
Qed.

Lemma scan_digits_chars (d : uint) (rest : pystr) :
  match rest with c :: _ => is_digit c | [] => false end = false ->
  scan_digits (uint_chars d ++ rest) = (uint_chars d, rest).
Proof.
  intros H.
  induction d as [|d IH|d IH|d IH|d IH|d IH|d IH|d IH|d IH|d IH|d IH];
    cbn [uint_chars app scan_digits];
    try (change (is_digit _) with true; cbv iota; rewrite IH; reflexivity).
  destruct rest as [|c r]; [reflexivity|]. cbn [scan_digits]. rewrite H. reflexivity.
Qed.

Lemma unorm_fix_canon (d : uint) : unorm d = d -> canon d = true.
Proof.
  destruct d; try reflexivity.
  - discriminate.
  - rewrite unorm_D0. unfold unorm. intros H.
    destruct (nzhead d) eqn:E; try (exfalso; revert E; rewrite H; apply nzhead_nonzero).
    injection H as <-. reflexivity.
Qed.

Lemma to_uint_canon (p : positive) : canon (Pos.to_uint p) = true.
Proof.
  apply unorm_fix_canon.
  rewrite <- DecimalPos.Unsigned.to_of, DecimalPos.Unsigned.of_to. reflexivity.
Qed.

Lemma number_stop_digit (rest : pystr) :
  number_stop rest = true ->
  match rest with c :: _ => is_digit c | [] => false end = false.
Proof.
  destruct rest as [|c r]; [reflexivity|]. cbn [number_stop].
  intros H. apply negb_true_iff in H.
  apply orb_false_iff in H. destruct H as [H _].
  apply orb_false_iff in H. destruct H as [H _].
  apply orb_false_iff in H. destruct H as [H _]. exact H.
Qed.

Lemma match_integer_chars (d : uint) (rest : pystr) :
  canon d = true -> number_stop rest = true ->
  match_integer (uint_chars d ++ rest) = Some (uint_chars d, rest)
  /\ match_integer (45 :: uint_chars d ++ rest) = Some (45 :: uint_chars d, rest).
Proof.
  intros Hc Hs. apply number_stop_digit in Hs.
  destruct d; try discriminate;
    try (unfold match_integer; cbn [uint_chars app];
         change (45 =? 45) with true; cbv iota;
         match goal with |- context [?x :: uint_chars _ ++ _] =>
           change (x =? 45) with false; change (x =? 48) with false;
           change (is_digit x) with true end;
         cbv iota; rewrite (scan_digits_chars d rest Hs); split; reflexivity).
  destruct d; try discriminate. split; reflexivity.
Qed.

Lemma match_frac_stop (rest : pystr) :
  number_stop rest = true -> match_frac rest = ([], rest).
Proof.
  destruct rest as [|c r]; [reflexivity|]. cbn [number_stop]. intros H.
  apply negb_true_iff in H.
  apply orb_false_iff in H. destruct H as [H _].
  apply orb_false_iff in H. destruct H as [H _].
  apply orb_false_iff in H. destruct H as [_ H].
  unfold match_frac. rewrite H. reflexivity.
Qed.

Lemma match_exp_stop (rest : pystr) :
  number_stop rest = true -> match_exp rest = ([], rest).
Proof.
  destruct rest as [|c r]; [reflexivity|]. cbn [number_stop]. intros H.
  apply negb_true_iff in H.
  apply orb_false_iff in H. destruct H as [H H3].
  apply orb_false_iff in H. destruct H as [H H2].
  unfold match_exp. rewrite H2, H3. reflexivity.
Qed.

Lemma match_number_int_repr (z : Z) (rest : pystr) :
  number_stop rest = true ->
  match_number (int_repr z ++ rest) = Some (int_repr z, [], [], rest).
Proof.
  intros Hs. unfold match_number, int_repr.
  assert (H : match_integer (match Z.to_int z with
                             | Pos d => uint_chars d
                             | Neg d => 45 :: uint_chars d
                             end ++ rest)
              = Some (match Z.to_int z with
                      | Pos d => uint_chars d
                      | Neg d => 45 :: uint_chars d
                      end, rest)).
  { destruct z as [|p|p]; cbn [Z.to_int].
    - reflexivity.
    - apply match_integer_chars; [apply to_uint_canon | exact Hs].
    - apply match_integer_chars; [apply to_uint_canon | exact Hs]. }
  rewrite H. rewrite match_frac_stop, match_exp_stop by assumption. reflexivity.
Qed.

Lemma uint_chars_head (d : uint) (c : N) (r : pystr) :
  uint_chars d = c :: r -> is_digit c = true.
Proof. destruct d; cbn [uint_chars]; intros H; try discriminate; injection H as <- _; reflexivity. Qed.

Lemma py_int_int_repr (z : Z) : py_int (int_repr z) = z.
Proof.
  rewrite <- (DecimalZ.of_to z) at 2.
  unfold int_repr. destruct (Z.to_int z) as [d|d].
  - unfold py_int. destruct (uint_chars d) as [|c r] eqn:E.
    + destruct d; discriminate || reflexivity.
    + pose proof (uint_chars_head d c r E) as Hd.
      destruct (c =? 45) eqn:E45.
      * apply N.eqb_eq in E45. subst c. discriminate.
      * rewrite <- E, uint_of_chars_chars. reflexivity.
  - unfold py_int. change (45 =? 45) with true. cbv iota.
    rewrite uint_of_chars_chars. reflexivity.
Qed.

Lemma int_repr_head (z : Z) :
  exists c r, int_repr z = c :: r /\ (c = 45 \/ is_digit c = true).
Proof.
  unfold int_repr. destruct z as [|p|p]; cbn [Z.to_int].
  - exists 48, []. split; [reflexivity | right; reflexivity].
  - pose proof (to_uint_canon p) as Hc.
    destruct (uint_chars (Pos.to_uint p)) as [|c r] eqn:E.
    + destruct (Pos.to_uint p); discriminate.
    + exists c, r. split; [reflexivity | right; eapply uint_chars_head; exact E].
  - eexists _, _. split; [reflexivity | left; reflexivity].
Qed.

(** ** The number pattern on a longer text *)

Lemma scan_digits_split (s ds r : pystr) : scan_digits s = (ds, r) -> s = ds ++ r.
Proof.
  revert ds r. induction s as [|c s IH]; intros ds r H; cbn [scan_digits] in H.
  - injection H as <- <-. reflexivity.
  - destruct (is_digit c).
    + destruct (scan_digits s) as [ds' r'] eqn:E. injection H as <- <-.
      cbn [app]. f_equal. apply IH. reflexivity.
    + injection H as <- <-. reflexivity.
Qed.

Lemma scan_digits_app (s ds r rest : pystr) :
  scan_digits s = (ds, r) ->
  match rest with c :: _ => is_digit c | [] => false end = false ->
  scan_digits (s ++ rest) = (ds, r ++ rest).
Proof.
  revert ds r. induction s as [|c s IH]; intros ds r H Hr; cbn [scan_digits] in H.
  - injection H as <- <-. cbn [app]. destruct rest as [|c rest]; [reflexivity|].
    cbn [scan_digits]. rewrite Hr. reflexivity.
  - cbn [app scan_digits]. destruct (is_digit c).
    + destruct (scan_digits s) as [ds' r'] eqn:E. injection H as <- <-.
      rewrite (IH ds' r' eq_refl Hr). reflexivity.
    + injection H as <- <-. reflexivity.
Qed.

Lemma match_integer_split (s i r : pystr) :
  match_integer s = Some (i, r) ->
  s = i ++ r /\ exists c i', i = c :: i' /\ (c = 45 \/ is_digit c = true).
Proof.
  unfold match_integer. intros H.
  assert (G : forall sign s1, (sign = [] \/ sign = [45]) ->
    match s1 with
    | c :: r0 =>
        if c =? 48 then Some (sign ++ [48], r0)
        else if is_digit c
        then let '(ds, rest) := scan_digits r0 in Some (sign ++ c :: ds, rest)
        else None
    | [] => None
    end = Some (i, r) ->
    sign ++ s1 = i ++ r /\ exists c i', i = c :: i' /\ (c = 45 \/ is_digit c = true)).
  { intros sign s1 Hsign G. destruct s1 as [|c r0]; [discriminate|].
    destruct (c =? 48) eqn:E0.
    - apply N.eqb_eq in E0. subst c. injection G as <- <-.
      rewrite <- app_assoc. split; [reflexivity|].
      destruct Hsign as [-> | ->]; eexists _, _; (split; [reflexivity|]);
        [right; reflexivity | left; reflexivity].
    - destruct (is_digit c) eqn:Ed; [|discriminate].
      destruct (scan_digits r0) as [ds rest] eqn:E. injection G as <- <-.
      apply scan_digits_split in E. subst r0.
      rewrite <- app_assoc. split; [reflexivity|].
      destruct Hsign as [-> | ->]; eexists _, _; (split; [reflexivity|]);
        [right; exact Ed | left; reflexivity]. }
  destruct s as [|c s']; [discriminate|].
  destruct (c =? 45) eqn:E.
  - apply N.eqb_eq in E. subst c.
    destruct (G [45] s' (or_intror eq_refl) H) as [G1 G2]. split; assumption.
  - destruct (G [] (c :: s') (or_introl eq_refl) H) as [G1 G2]. split; assumption.
Qed.

Lemma match_integer_app (s i r rest : pystr) :
  match_integer s = Some (i, r) ->
  match rest with c :: _ => is_digit c | [] => false end = false ->
  match_integer (s ++ rest) = Some (i, r ++ rest).
Proof.
  unfold match_integer. intros H Hr.
  assert (G : forall sign s1,
    match s1 with
    | c :: r0 =>
        if c =? 48 then Some (sign ++ [48], r0)
        else if is_digit c
        then let '(ds, rest) := scan_digits r0 in Some (sign ++ c :: ds, rest)
        else None
    | [] => None
    end = Some (i, r) ->
    match s1 ++ rest with
    | c :: r0 =>
        if c =? 48 then Some (sign ++ [48], r0)
        else if is_digit c
        then let '(ds, rest) := scan_digits r0 in Some (sign ++ c :: ds, rest)
        else None
    | [] => None
    end = Some (i, r ++ rest)).
  { intros sign s1 G. destruct s1 as [|c r0]; [discriminate|]. cbn [app].
    destruct (c =? 48).
    - injection G as <- <-. reflexivity.
    - destruct (is_digit c); [|discriminate].
      destruct (scan_digits r0) as [ds rest'] eqn:E. injection G as <- <-.
      rewrite (scan_digits_app _ _ _ _ E Hr). reflexivity. }
  destruct s as [|c s']; [discriminate|]. cbn [app].
  destruct (c =? 45).
  - apply G. exact H.
  - apply (G [] (c :: s')). exact H.
Qed.

Lemma match_frac_split (s f r : pystr) : match_frac s = (f, r) -> s = f ++ r.
Proof.
  unfold match_frac. destruct s as [|c s']; intros H.
  - injection H as <- <-. reflexivity.
  - destruct (c =? 46) eqn:E0.
    + apply N.eqb_eq in E0. subst c.
      destruct (scan_digits s') as [ds rest] eqn:E.
      apply scan_digits_split in E. subst s'.
      destruct ds; injection H as <- <-; reflexivity.
    + injection H as <- <-. reflexivity.
Qed.

Lemma match_frac_app (s f r rest : pystr) :
  match_frac s = (f, r) -> number_stop rest = true ->
  match_frac (s ++ rest) = (f, r ++ rest).
Proof.
  intros H Hs. destruct s as [|c s'].
  - injection H as <- <-. apply match_frac_stop. exact Hs.
  - unfold match_frac in *. cbn [app]. destruct (c =? 46).
    + destruct (scan_digits s') as [ds rest'] eqn:E.
      rewrite (scan_digits_app _ _ _ _ E (number_stop_digit _ Hs)).
      destruct ds; injection H as <- <-; reflexivity.
    + injection H as <- <-. reflexivity.
Qed.

Lemma match_exp_split (s e r : pystr) : match_exp s = (e, r) -> s = e ++ r.
Proof.
  unfold match_exp. destruct s as [|c s']; intros H.
  - injection H as <- <-. reflexivity.
  - destruct ((c =? 101) || (c =? 69)).
    + destruct s' as [|c2 r2].
      * cbn [scan_digits] in H. injection H as <- <-. reflexivity.
      * destruct ((c2 =? 43) || (c2 =? 45)).
        -- destruct (scan_digits r2) as [ds rest] eqn:E.
           apply scan_digits_split in E. subst r2.
           destruct ds; injection H as <- <-; reflexivity.
        -- destruct (scan_digits (c2 :: r2)) as [ds rest] eqn:E.
           apply scan_digits_split in E.
           destruct ds; injection H as <- <-;
             [reflexivity | cbn [app]; f_equal; exact E].
    + injection H as <- <-. reflexivity.
Qed.

Lemma match_exp_app (s e rest : pystr) :
  match_exp s = (e, []) -> number_stop rest = true ->
  match_exp (s ++ rest) = (e, rest).
Proof.
  intros H Hs. destruct s as [|c s'].
  - injection H as <-. apply match_exp_stop. exact Hs.
  - unfold match_exp in *. cbn [app]. destruct ((c =? 101) || (c =? 69)).
    + destruct s' as [|c2 r2].
      * cbn [scan_digits] in H. discriminate.
      * cbn [app]. destruct ((c2 =? 43) || (c2 =? 45)).
        -- destruct (scan_digits r2) as [ds rest'] eqn:E.
           rewrite (scan_digits_app _ _ _ _ E (number_stop_digit _ Hs)).
           destruct ds; [discriminate|]. injection H as <- ->. reflexivity.
        -- destruct (scan_digits (c2 :: r2)) as [ds rest'] eqn:E.
           change (c2 :: r2 ++ rest) with ((c2 :: r2) ++ rest).
           rewrite (scan_digits_app _ _ _ _ E (number_stop_digit _ Hs)).
           destruct ds; [discriminate|]. injection H as <- ->. reflexivity.
    + discriminate.
Qed.

Lemma match_number_split (t i f e r : pystr) :
  match_number t = Some (i, f, e, r) ->
  t = i ++ f ++ e ++ r /\ exists c i', i = c :: i' /\ (c = 45 \/ is_digit c = true).
Proof.
  unfold match_number. intros H.
  destruct (match_integer t) as [[i0 r0]|] eqn:Ei; [|discriminate].
  destruct (match_frac r0) as [f0 r1] eqn:Ef.
  destruct (match_exp r1) as [e0 r2] eqn:Ee.
  injection H as <- <- <- <-.
  apply match_integer_split in Ei. destruct Ei as [-> Hh].
  apply match_frac_split in Ef. apply match_exp_split in Ee. subst.
  split; [reflexivity | exact Hh].
Qed.

Lemma match_number_app (t i f e rest : pystr) :
  match_number t = Some (i, f, e, []) -> f <> [] \/ e <> [] ->
  number_stop rest = true ->
  match_number (t ++ rest) = Some (i, f, e, rest).
Proof.
  unfold match_number. intros H Hfe Hs.
  destruct (match_integer t) as [[i0 r0]|] eqn:Ei; [|discriminate].
  destruct (match_frac r0) as [f0 r1] eqn:Ef.
  destruct (match_exp r1) as [e0 r2] eqn:Ee.
  injection H as <- <- <- ->.
  rewrite (match_integer_app _ _ _ _ Ei (number_stop_digit _ Hs)).
  rewrite (match_frac_app _ _ _ _ Ef Hs).
  rewrite (match_exp_app _ _ _ Ee Hs). reflexivity.
Qed.

(** ** Values: [json_loads] reads back what [json_dumps] wrote *)

Section JsonFacts.
Context {PF : PyFloat}.

Lemma json_nested_ind (P : json -> Prop) :
  P JNull -> (forall b, P (JBool b)) -> (forall z, P (JInt z)) ->
  (forall x, P (JFloat x)) -> (forall s, P (JStr s)) ->
  (forall l, Forall P l -> P (JArr l)) ->
  (forall items, Forall (fun kv => P (snd kv)) items -> P (JObj items)) ->
  forall v, P v.
Proof.
  intros Hn Hb Hz Hx Hs Ha Ho. fix IH 1. intros [ | b | z | x | s | l | items].
  - exact Hn.
  - apply Hb.
  - apply Hz.
  - apply Hx.
  - apply Hs.
  - apply Ha. induction l as [|y l IHl]; constructor; [apply IH | exact IHl].
  - apply Ho. induction items as [|[k y] items IHl]; constructor; [apply IH | exact IHl].
Qed.

Lemma skip_ws_nonws (c : N) (r : pystr) : is_ws c = false -> skip_ws (c :: r) = c :: r.
Proof. intros H. cbn [skip_ws]. rewrite H. reflexivity. Qed.

Lemma scan_once_atom (fuel : nat) (c : N) (r : pystr) :
  c <> 34 -> c <> 123 -> c <> 91 ->
  scan_once (S fuel) (c :: r) = scan_atom (c :: r).
Proof.
  intros H1 H2 H3. cbn [scan_once].
  apply N.eqb_neq in H1, H2, H3. rewrite H1, H2, H3. reflexivity.
Qed.

Lemma strip_prefix_head (a c : N) (p s : pystr) :
  a <> c -> strip_prefix (a :: p) (c :: s) = None.
Proof. intros H. cbn [strip_prefix]. apply N.eqb_neq in H. rewrite H. reflexivity. Qed.

Lemma digit_range (c : N) : is_digit c = true -> 48 <= c <= 57.
Proof.
  unfold is_digit. intros H. apply andb_true_iff in H. destruct H as [H1 H2].
  apply N.leb_le in H1, H2. lia.
Qed.

(** A text that starts like a number is read by the number pattern. *)
Lemma scan_atom_number (c : N) (t : pystr) :
  c = 45 \/ is_digit c = true ->
  forall i f e r, match_number (c :: t) = Some (i, f, e, r) ->
  scan_atom (c :: t) = Some (number_value i f e, r).
Proof.
  intros Hc i f e r Hm. unfold scan_atom.
  assert (Hr : c = 45 \/ 48 <= c <= 57).
  { destruct Hc as [Hc | Hc]; [left; exact Hc | right; apply digit_range; exact Hc]. }
  cbn [lit list_ascii_of_string List.map].
  rewrite !strip_prefix_head by (cbn; lia).
  rewrite Hm. reflexivity.
Qed.

Context {PL : PyFloatLaws}.

Lemma scan_atom_float (x : float) (rest : pystr) :
  number_stop rest = true ->
  scan_atom (floatstr x ++ rest) = Some (JFloat x, rest).
Proof.
  intros Hs. rewrite <- (float_of_floatstr x) at 2.
  destruct (floatstr_lexeme x) as [H | [H | [H | (i & f & e & Hm & Hfe)]]].
  - rewrite H. reflexivity.
  - rewrite H. reflexivity.
  - rewrite H. reflexivity.
  - destruct (match_number_split _ _ _ _ _ Hm) as [Ht (c & i' & Hi & Hc)].
    rewrite app_nil_r in Ht.
    pose proof (match_number_app _ _ _ _ rest Hm Hfe Hs) as Happ.
    rewrite Ht in Happ |- *. rewrite Hi in Happ |- *. cbn [app] in Happ |- *.
    rewrite (scan_atom_number c _ Hc _ _ _ _ Happ).
    unfold number_value. destruct f; [destruct e; [destruct Hfe; congruence|]|]; reflexivity.
Qed.

Lemma scan_atom_int (z : Z) (rest : pystr) :
  number_stop rest = true ->
  scan_atom (int_repr z ++ rest) = Some (JInt z, rest).
Proof.
  intros Hs. pose proof (match_number_int_repr z rest Hs) as Hm.
  destruct (int_repr_head z) as (c & r & Hr & Hc).
  rewrite Hr in Hm |- *. cbn [app] in Hm |- *.
  rewrite (scan_atom_number c _ Hc _ _ _ _ Hm).
  unfold number_value. rewrite <- Hr, py_int_int_repr. reflexivity.
Qed.

Lemma floatstr_head (x : float) :
  exists c t, floatstr x = c :: t /\ c <> 34 /\ c <> 123 /\ c <> 91 /\ value_start c.
Proof.
  unfold value_start.
  destruct (floatstr_lexeme x) as [H | [H | [H | (i & f & e & Hm & Hfe)]]].
  - rewrite H. eexists _, _. split; [reflexivity|]. cbn. repeat split; discriminate.
  - rewrite H. eexists _, _. split; [reflexivity|]. cbn. repeat split; discriminate.
  - rewrite H. eexists _, _. split; [reflexivity|]. cbn. repeat split; discriminate.
  - destruct (match_number_split _ _ _ _ _ Hm) as [Ht (c & i' & Hi & Hc)].
    rewrite Ht, Hi. eexists _, _. split; [reflexivity|].
    assert (Hr : c = 45 \/ 48 <= c <= 57).
    { destruct Hc as [Hc | Hc]; [left; exact Hc | right; apply digit_range; exact Hc]. }
    unfold is_ws. repeat split; try lia.
    repeat (apply orb_false_iff; split); apply N.eqb_neq; lia.
Qed.

Lemma json_dumps_head (v : json) :
  exists c t, json_dumps v = c :: t /\ value_start c.
Proof.
  unfold value_start. destruct v as [ | [|] | z | x | s | l | items].
  - eexists _, _. split; [reflexivity|]. cbn. repeat split; discriminate.
  - eexists _, _. split; [reflexivity|]. cbn. repeat split; discriminate.
  - eexists _, _. split; [reflexivity|]. cbn. repeat split; discriminate.
  - destruct (int_repr_head z) as (c & r & Hr & Hc). exists c, r.
    split; [exact Hr|].
    assert (Hr' : c = 45 \/ 48 <= c <= 57).
    { destruct Hc as [Hc | Hc]; [left; exact Hc | right; apply digit_range; exact Hc]. }
    unfold is_ws. repeat split; try lia.
    repeat (apply orb_false_iff; split); apply N.eqb_neq; lia.
  - destruct (floatstr_head x) as (c & t & Ht & _ & _ & _ & Hv). exists c, t.
    split; assumption.
  - eexists _, _. split; [reflexivity|]. cbn. repeat split; discriminate.
  - eexists _, _. split; [reflexivity|]. cbn. repeat split; discriminate.
  - eexists _, _. split; [reflexivity|]. cbn. repeat split; discriminate.
Qed.

Lemma json_size_pos (v : json) : (1 <= json_size v)%nat.
Proof. destruct v; cbn [json_size]; lia. Qed.

Lemma skip_ws_dumps (v : json) (t : pystr) :
  skip_ws (json_dumps v ++ t) = json_dumps v ++ t.
Proof.
  destruct (json_dumps_head v) as (c & r & Hr & Hw & _). rewrite Hr.
  cbn [app]. apply skip_ws_nonws. exact Hw.
Qed.

Lemma join_cons2 (sep p q : pystr) (ps : list pystr) :
  join sep (p :: q :: ps) = p ++ sep ++ join sep (q :: ps).
Proof. reflexivity. Qed.

Lemma skip_ws_space (t : pystr) : skip_ws (32 :: t) = skip_ws t.
Proof. reflexivity. Qed.

Lemma skip_ws_join_dumps (l : list json) (t : pystr) :
  l <> [] ->
  skip_ws (join (lit ", ") (List.map json_dumps l) ++ t)
  = join (lit ", ") (List.map json_dumps l) ++ t.
Proof.
  destruct l as [|y [|z l]]; [congruence | |]; intros _.
  - apply skip_ws_dumps.
  - cbn [List.map]. rewrite join_cons2, <- app_assoc. apply skip_ws_dumps.
Qed.

Lemma parse_elems_dumps (l : list json) :
  l <> [] -> Forall reads_back l ->
  forall (fuel : nat) (rest : pystr),
    (elems_size l <= fuel)%nat ->
    parse_elems fuel (join (lit ", ") (List.map json_dumps l) ++ 93 :: rest)
    = Some (l, rest).
Proof.
  induction l as [|x l IH]; [congruence|]. intros _ Hl fuel rest Hf.
  apply Forall_cons in Hl. destruct Hl as [Hx Hl].
  cbn [elems_size fold_right] in Hf. fold (elems_size l) in Hf.
  destruct fuel as [|f]; [lia|].
  destruct l as [|y l'].
  - cbn [List.map join parse_elems].
    rewrite (Hx f (93 :: rest)) by (lia || reflexivity).
    reflexivity.
  - cbn [List.map]. rewrite join_cons2, <- !app_assoc.
    cbn [parse_elems].
    rewrite (Hx f) by (lia || reflexivity).
    change (lit ", " ++ ?t) with (44 :: 32 :: t).
    rewrite (skip_ws_nonws 44) by reflexivity.
    change (44 =? 93) with false. change (44 =? 44) with true. cbv iota.
    rewrite skip_ws_space.
    change (json_dumps y :: List.map json_dumps l') with (List.map json_dumps (y :: l')).
    rewrite skip_ws_join_dumps by discriminate.
    rewrite (IH ltac:(discriminate) Hl f rest) by lia.
    reflexivity.
Qed.

Lemma item_text_eq (k : pystr) (v : json) (t : pystr) :
  item_text (k, v) ++ t
  = 34 :: flat_map escape_char k ++ 34 :: 58 :: 32 :: json_dumps v ++ t.
Proof.
  unfold item_text, encode_basestring_ascii. cbn [fst snd].
  cbn [app]. rewrite <- !app_assoc. reflexivity.
Qed.

Lemma skip_ws_join_items (items : list (pystr * json)) (t : pystr) :
  items <> [] ->
  skip_ws (join (lit ", ") (List.map item_text items) ++ t)
  = join (lit ", ") (List.map item_text items) ++ t.
Proof.
  destruct items as [|[k v] [|z l]]; [congruence | |]; intros _.
  - cbn [List.map join]. rewrite item_text_eq. reflexivity.
  - cbn [List.map]. rewrite join_cons2, <- app_assoc, item_text_eq. reflexivity.
Qed.

Lemma parse_pairs_item (f : nat) (k : pystr) (v : json) (t : pystr) :
  str_ok k = true -> reads_back v -> (json_size v <= f)%nat ->
  number_stop t = true ->
  parse_pairs (S f) (item_text (k, v) ++ t)
  = match skip_ws t with
    | c3 :: r4 =>
        if c3 =? 125 then Some ([(k, v)], r4)
        else if c3 =? 44 then
          match parse_pairs f (skip_ws r4) with
          | Some (ps, rest) => Some ((k, v) :: ps, rest)
          | None => None
          end
        else None
    | [] => None
    end.
Proof.
  intros Hk Hv Hf Ht. rewrite item_text_eq. cbn [parse_pairs].
  change (34 =? 34) with true. cbv iota.
  rewrite (scanstring_escaped k _ Hk).
  rewrite (skip_ws_nonws 58) by reflexivity.
  change (58 =? 58) with true. cbv iota.
  rewrite skip_ws_space, skip_ws_dumps.
  rewrite (Hv f t Hf Ht). reflexivity.
Qed.

Lemma parse_pairs_dumps (items : list (pystr * json)) :
  items <> [] ->
  Forall (fun kv => str_ok (fst kv) = true /\ reads_back (snd kv)) items ->
  forall (fuel : nat) (rest : pystr),
    (items_size items <= fuel)%nat ->
    parse_pairs fuel (join (lit ", ") (List.map item_text items) ++ 125 :: rest)
    = Some (items, rest).
Proof.
  induction items as [|[k v] l IH]; [congruence|]. intros _ Hl fuel rest Hf.
  apply Forall_cons in Hl. destruct Hl as [[Hk Hv] Hl]. cbn [fst snd] in Hk, Hv.
  cbn [items_size fold_right snd] in Hf. fold (items_size l) in Hf.
  destruct fuel as [|f]; [lia|].
  destruct l as [|y l'].
  - cbn [List.map join].
    rewrite parse_pairs_item by (assumption || lia || reflexivity).
    reflexivity.
  - cbn [List.map]. rewrite join_cons2, <- !app_assoc.
    change (lit ", " ++ ?t) with (44 :: 32 :: t).
    rewrite parse_pairs_item by (assumption || lia || reflexivity).
    rewrite (skip_ws_nonws 44) by reflexivity.
    change (44 =? 125) with false. change (44 =? 44) with true. cbv iota.
    rewrite skip_ws_space.
    change (item_text y :: List.map item_text l') with (List.map item_text (y :: l')).
    rewrite skip_ws_join_items by discriminate.
    rewrite (IH ltac:(discriminate) Hl f rest) by lia.
    reflexivity.
Qed.

(** Distinct keys: building the dict from its own items changes nothing. *)
Lemma dict_set_fresh (k : pystr) (v : json) (d : list (pystr * json)) :
  k ∉ List.map fst d -> dict_set k v d = d ++ [(k, v)].
Proof.
  induction d as [|[k' v'] d IH]; intros H; cbn [dict_set app].
  - reflexivity.
  - cbn [List.map fst] in H. apply not_elem_of_cons in H. destruct H as [H1 H2].
    destruct (decide (k = k')); [contradiction|]. rewrite IH by assumption. reflexivity.
Qed.

Lemma dict_fold_nodup (l acc : list (pystr * json)) :
  NoDup (List.map fst (acc ++ l)) ->
  fold_left (fun d kv => dict_set (fst kv) (snd kv) d) l acc = acc ++ l.
Proof.
  revert acc. induction l as [|[k v] l IH]; intros acc H; cbn [fold_left].
  - rewrite app_nil_r. reflexivity.
  - cbn [fst snd]. rewrite dict_set_fresh.
    + rewrite IH; rewrite <- app_assoc; [reflexivity | exact H].
    + rewrite List.map_app in H. apply NoDup_app in H.
      destruct H as (_ & H & _). intros Hin. apply (H k Hin).
      cbn [List.map fst]. left.
Qed.

Lemma dict_nodup (items : list (pystr * json)) :
  NoDup (List.map fst items) -> dict items = items.
Proof. intros H. unfold dict. apply (dict_fold_nodup items []). exact H. Qed.

Lemma forallb_Forall_true {A} (f : A -> bool) (l : list A) :
  forallb f l = true <-> Forall (fun x => f x = true) l.
Proof.
  induction l as [|x l IH]; cbn [forallb].
  - split; [constructor | reflexivity].
  - rewrite andb_true_iff, Forall_cons, IH. reflexivity.
Qed.

Lemma json_ok_reads_back (v : json) : json_ok v = true -> reads_back v.
Proof.
  induction v as [ | b | z | x | s | l IH | items IH] using json_nested_ind;
    intros Hok fuel rest Hf Hs; cbn [json_size] in Hf;
    (destruct fuel as [|f]; [lia|]).
  - reflexivity.
  - destruct b; reflexivity.
  - destruct (int_repr_head z) as (c & r & Hr & Hc).
    cbn [json_dumps]. pose proof (scan_atom_int z rest Hs) as Ha.
    rewrite Hr in Ha |- *. cbn [app] in Ha |- *.
    rewrite scan_once_atom; [exact Ha | | |];
      (destruct Hc as [-> | Hc]; [discriminate | apply digit_range in Hc; lia]).
  - destruct (floatstr_head x) as (c & t & Ht & H1 & H2 & H3 & _).
    cbn [json_dumps]. pose proof (scan_atom_float x rest Hs) as Ha.
    rewrite Ht in Ha |- *. cbn [app] in Ha |- *.
    rewrite scan_once_atom by assumption. exact Ha.
  - cbn [json_dumps json_ok] in *. unfold encode_basestring_ascii.
    cbn [app scan_once]. change (34 =? 34) with true. cbv iota.
    rewrite <- app_assoc. cbn [app].
    rewrite (scanstring_escaped s rest Hok). reflexivity.
  - cbn [json_dumps json_ok] in *.
    cbn [app scan_once]. change (91 =? 34) with false.
    change (91 =? 123) with false. change (91 =? 91) with true. cbv iota.
    rewrite <- app_assoc. cbn [app].
    destruct l as [|y l'].
    + reflexivity.
    + rewrite skip_ws_join_dumps by discriminate.
      assert (Hall : Forall reads_back (y :: l')).
      { apply forallb_Forall_true in Hok. rewrite Forall_forall in IH, Hok |- *.
        intros v Hv. apply IH; [exact Hv|]. apply Hok. exact Hv. }
      pose proof (parse_elems_dumps (y :: l') ltac:(discriminate) Hall f rest
                    ltac:(fold (elems_size (y :: l')) in Hf; lia)) as Hp.
      destruct (json_dumps_head y) as (c & t & Ht & _ & H93 & _).
      assert (Hj : exists t', join (lit ", ") (List.map json_dumps (y :: l')) ++ 93 :: rest = c :: t').
      { destruct l'; cbn [List.map]; [cbn [join] | rewrite join_cons2];
          rewrite Ht; eexists; reflexivity. }
      destruct Hj as [t' Hj]. rewrite Hj in Hp |- *.
      apply N.eqb_neq in H93. rewrite H93, Hp. reflexivity.
  - cbn [json_dumps json_ok] in *.
    apply andb_true_iff in Hok. destruct Hok as [Hok Hnd].
    apply bool_decide_eq_true in Hnd.
    cbn [app scan_once]. change (123 =? 34) with false.
    change (123 =? 123) with true. cbv iota.
    rewrite <- app_assoc. cbn [app].
    change (fun kv : pystr * json =>
              encode_basestring_ascii (fst kv) ++ lit ": " ++ json_dumps (snd kv))
      with item_text.
    destruct items as [|[k y] l'].
    + reflexivity.
    + rewrite skip_ws_join_items by discriminate.
      assert (Hall : Forall (fun kv => str_ok (fst kv) = true /\ reads_back (snd kv))
                            ((k, y) :: l')).
      { apply forallb_Forall_true in Hok. rewrite Forall_forall in IH, Hok |- *.
        intros kv Hkv. specialize (Hok kv Hkv).
        apply andb_true_iff in Hok. destruct Hok as [Hk Hv].
        split; [exact Hk | apply IH; assumption]. }
      pose proof (parse_pairs_dumps ((k, y) :: l') ltac:(discriminate) Hall f rest
                    ltac:(fold (items_size ((k, y) :: l')) in Hf; lia)) as Hp.
      assert (Hj : exists t', join (lit ", ") (List.map item_text ((k, y) :: l')) ++ 125 :: rest
                              = 34 :: t').
      { destruct l'; cbn [List.map]; [cbn [join] | rewrite join_cons2, <- app_assoc];
          rewrite item_text_eq; eexists; reflexivity. }
      destruct Hj as [t' Hj]. rewrite Hj in Hp |- *.
      change (34 =? 125) with false. cbv iota. rewrite Hp.
      rewrite dict_nodup by exact Hnd. reflexivity.
Qed.

Lemma elems_size_length (l : list json) :
  Forall (fun x => (json_size x <= length (json_dumps x))%nat) l ->
  (elems_size l <= length (join (lit ", ") (List.map json_dumps l)) + 1)%nat.
Proof.
  induction l as [|x l IH]; intros H; [cbn; lia|].
  apply Forall_cons in H. destruct H as [Hx Hl]. specialize (IH Hl).
  cbn [elems_size fold_right]. fold (elems_size l).
  destruct l as [|y l'].
  - cbn [List.map join elems_size fold_right]. lia.
  - cbn [List.map] in *. rewrite join_cons2, !length_app.
    change (length (lit ", ")) with 2%nat. lia.
Qed.

Lemma items_size_length (items : list (pystr * json)) :
  Forall (fun kv => (json_size (snd kv) <= length (json_dumps (snd kv)))%nat) items ->
  (items_size items <= length (join (lit ", ") (List.map item_text items)) + 1)%nat.
Proof.
  induction items as [|x l IH]; intros H; [cbn; lia|].
  apply Forall_cons in H. destruct H as [Hx Hl]. specialize (IH Hl).
  cbn [items_size fold_right]. fold (items_size l).
  assert (Hi : (json_size (snd x) <= length (item_text x))%nat).
  { unfold item_text. rewrite !length_app. lia. }
  destruct l as [|y l'].
  - cbn [List.map join items_size fold_right]. lia.
  - cbn [List.map] in *. rewrite join_cons2, !length_app.
    change (length (lit ", ")) with 2%nat. lia.
Qed.

Lemma json_size_length (v : json) : (json_size v <= length (json_dumps v))%nat.
Proof.
  induction v as [ | b | z | x | s | l IH | items IH] using json_nested_ind;
    cbn [json_size].
  - cbn. lia.
  - destruct b; cbn; lia.
  - destruct (json_dumps_head (JInt z)) as (c & t & Ht & _). rewrite Ht. cbn. lia.
  - destruct (json_dumps_head (JFloat x)) as (c & t & Ht & _). rewrite Ht. cbn. lia.
  - cbn. lia.
  - pose proof (elems_size_length l IH) as Hl. fold (elems_size l).
    cbn [json_dumps length]. rewrite length_app. cbn [length]. lia.
  - pose proof (items_size_length items IH) as Hl. fold (items_size items).
    cbn [json_dumps length]. rewrite length_app. cbn [length].
    change (fun kv : pystr * json =>
              encode_basestring_ascii (fst kv) ++ lit ": " ++ json_dumps (snd kv))
      with item_text. lia.
Qed.

(** Reading back a printed value with [json_loads]. *)
Lemma json_loads_dumps (v : json) :
  json_ok v = true -> json_loads (json_dumps v) = Some v.
Proof.
  intros Hok. unfold json_loads.
  rewrite <- (app_nil_r (json_dumps v)) at 1 2. rewrite skip_ws_dumps, app_nil_r.
  pose proof (json_ok_reads_back v Hok (S (length (json_dumps v))) []
                ltac:(pose proof (json_size_length v); lia) eq_refl) as H.
  rewrite app_nil_r in H. rewrite H. reflexivity.
Qed.

End JsonFacts.

(** ** What [scanstring] returns, as a relation *)

Lemma prepend_Some (c : N) (r : option (pystr * pystr)) (str rest : pystr) :
  prepend c r = Some (str, rest) ->
  exists str', str = c :: str' /\ r = Some (str', rest).
Proof.
  destruct r as [[s' r']|]; cbn [prepend]; intros H; [|discriminate].
  injection H as <- <-. exists s'. split; reflexivity.
Qed.

Lemma scanstring_scanned_len (n : nat) :
  forall s str rest, (length s <= n)%nat ->
    scanstring s = Some (str, rest) -> scanned s str rest.
Proof.
  induction n as [|n IH]; intros s str rest Hn H.
  { destruct s; [discriminate | cbn in Hn; lia]. }
  destruct s as [|c r]; [discriminate|]. cbn [scanstring] in H.
  destruct (c =? 34) eqn:E34.
  { apply N.eqb_eq in E34. subst c. injection H as <- <-. constructor. }
  destruct (c =? 92) eqn:E92.
  2:{ destruct (c <? 32) eqn:E32; [discriminate|].
      apply prepend_Some in H. destruct H as (str' & -> & H).
      apply N.eqb_neq in E34, E92. apply N.ltb_ge in E32.
      apply ScanRaw; try assumption. apply IH; [cbn in Hn; lia | exact H]. }
  apply N.eqb_eq in E92. subst c.
  destruct r as [|e r1]; [discriminate|].
  destruct (e =? 117) eqn:E117.
  2:{ destruct (unescape e) as [x|] eqn:Ex; [|discriminate].
      apply prepend_Some in H. destruct H as (str' & -> & H).
      apply N.eqb_neq in E117.
      apply ScanShort; try assumption. apply IH; [cbn in Hn; lia | exact H]. }
  apply N.eqb_eq in E117. subst e.
  destruct r1 as [|h1 [|h2 [|h3 [|h4 r2]]]]; try discriminate.
  destruct (decode_hex4 h1 h2 h3 h4) as [uni|] eqn:Ed; [|discriminate].
  assert (Hplain : forall (Hlow : is_high_surrogate uni = true -> starts_low_escape r2 = false),
             prepend uni (scanstring r2) = Some (str, rest) ->
             scanned (92 :: 117 :: h1 :: h2 :: h3 :: h4 :: r2) str rest).
  { intros Hlow Hp. apply prepend_Some in Hp. destruct Hp as (str' & -> & Hp).
    apply ScanU; try assumption. apply IH; [cbn in Hn; lia | exact Hp]. }
  destruct (is_high_surrogate uni) eqn:Eh.
  2:{ apply Hplain; [discriminate | exact H]. }
  destruct r2 as [|bs [|u [|k1 [|k2 [|k3 [|k4 r3]]]]]];
    try (apply Hplain; [reflexivity | exact H]).
  destruct ((bs =? 92) && (u =? 117)) eqn:Ebu.
  2:{ apply Hplain; [|exact H]. intros _. cbn [starts_low_escape]. rewrite Ebu. reflexivity. }
  destruct (decode_hex4 k1 k2 k3 k4) as [uni2|] eqn:Ed2; [|discriminate].
  destruct (is_low_surrogate uni2) eqn:El.
  2:{ apply Hplain; [|exact H]. intros _. cbn [starts_low_escape].
      rewrite Ebu, Ed2, El. reflexivity. }
  apply andb_true_iff in Ebu. destruct Ebu as [Eb Eu].
  apply N.eqb_eq in Eb, Eu. subst bs u.
  apply prepend_Some in H. destruct H as (str' & -> & H).
  apply ScanPair; try assumption. apply IH; [cbn in Hn; lia | exact H].
Qed.

Lemma scanstring_scanned (s str rest : pystr) :
  scanstring s = Some (str, rest) -> scanned s str rest.
Proof. apply (scanstring_scanned_len (length s)). lia. Qed.

Lemma scanned_length (s str rest : pystr) :
  scanned s str rest -> (length rest < length s)%nat.
Proof. induction 1; cbn [length] in *; lia. Qed.

Lemma scanned_suffix (s str rest : pystr) :
  scanned s str rest -> exists p, s = p ++ rest.
Proof.
  induction 1 as [r | c r str rest _ _ _ _ [p ->] | e x r str rest _ _ _ [p ->]
                 | h1 h2 h3 h4 uni r2 str rest _ _ _ [p ->]
                 | h1 h2 h3 h4 k1 k2 k3 k4 uni uni2 r3 str rest _ _ _ _ _ [p ->]].
  - exists [34]. reflexivity.
  - exists (c :: p). reflexivity.
  - exists (92 :: e :: p). reflexivity.
  - exists (92 :: 117 :: h1 :: h2 :: h3 :: h4 :: p). reflexivity.
  - exists (92 :: 117 :: h1 :: h2 :: h3 :: h4 :: 92 :: 117 :: k1 :: k2 :: k3 :: k4 :: p).
    reflexivity.
Qed.

(** ** Strings read from Unicode text are [str_ok] *)

Lemma scalar_not_surrogate (c : N) :
  is_scalar c = true ->
  is_codepoint c = true /\ is_high_surrogate c = false /\ is_low_surrogate c = false.
Proof.
  unfold is_scalar, is_surrogate, is_high_surrogate, is_low_surrogate.
  intros H. apply andb_true_iff in H. destruct H as [H1 H2].
  apply negb_true_iff, andb_false_iff in H2. split; [exact H1|].
  split; apply andb_false_iff;
    (destruct H2 as [H2 | H2]; apply N.leb_gt in H2);
    try (left; apply N.leb_gt; lia); try (right; apply N.leb_gt; lia).
Qed.

Lemma high_not_low (c : N) : is_high_surrogate c = true -> is_low_surrogate c = false.
Proof.
  unfold is_high_surrogate, is_low_surrogate. intros H.
  apply andb_true_iff in H. destruct H as [H1 H2]. apply N.leb_le in H1, H2.
  apply andb_false_iff. left. apply N.leb_gt. lia.
Qed.

Lemma hex_val_bound (c x : N) : hex_val c = Some x -> x < 16.
Proof.
  unfold hex_val. intros H.
  destruct ((48 <=? c) && (c <=? 57)) eqn:E1.
  { apply andb_true_iff in E1. destruct E1 as [A B]. apply N.leb_le in A, B.
    injection H as <-. lia. }
  destruct ((97 <=? c) && (c <=? 102)) eqn:E2.
  { apply andb_true_iff in E2. destruct E2 as [A B]. apply N.leb_le in A, B.
    injection H as <-. lia. }
  destruct ((65 <=? c) && (c <=? 70)) eqn:E3; [|discriminate].
  apply andb_true_iff in E3. destruct E3 as [A B]. apply N.leb_le in A, B.
  injection H as <-. lia.
Qed.

Lemma decode_hex4_bound (a b c d uni : N) :
  decode_hex4 a b c d = Some uni -> uni < 65536.
Proof.
  unfold decode_hex4. intros H.
  destruct (hex_val a) as [x|] eqn:Ea; [|discriminate].
  destruct (hex_val b) as [y|] eqn:Eb; [|discriminate].
  destruct (hex_val c) as [z|] eqn:Ec; [|discriminate].
  destruct (hex_val d) as [w|] eqn:Ed; [|discriminate].
  apply hex_val_bound in Ea, Eb, Ec, Ed. injection H as <-. lia.
Qed.

Lemma join_surrogates_range (uni uni2 : N) :
  is_high_surrogate uni = true -> is_low_surrogate uni2 = true ->
  0x10000 <= join_surrogates uni uni2 < 0x110000.
Proof.
  unfold is_high_surrogate, is_low_surrogate, join_surrogates. intros H1 H2.
  apply andb_true_iff in H1, H2. destruct H1 as [A B], H2 as [C D].
  apply N.leb_le in A, B, C, D.
  rewrite N.shiftl_mul_pow2. rewrite lor_disjoint by (change (2 ^ 10) with 1024; lia).
  change (2 ^ 10) with 1024. lia.
Qed.

Lemma unescape_ascii (e x : N) : unescape e = Some x -> x < 128.
Proof.
  unfold unescape. intros H.
  repeat match type of H with
         | (if ?b then _ else _) = _ => destruct b; [injection H as <-; lia|]
         end.
  discriminate.
Qed.

Lemma low_range (c : N) : is_low_surrogate c = true -> 0xDC00 <= c <= 0xDFFF.
Proof.
  unfold is_low_surrogate. intros H. apply andb_true_iff in H.
  destruct H as [A B]. apply N.leb_le in A, B. lia.
Qed.

Lemma scanned_head_low (s str rest : pystr) :
  scanned s str rest -> unicode_text s -> head_low str = true ->
  starts_low_escape s = true.
Proof.
  intros Hs Ht Hl.
  destruct Hs as [r | c r str rest _ _ _ _ | e x r str rest _ Hx _
                 | h1 h2 h3 h4 uni r2 str rest Hd _ _
                 | h1 h2 h3 h4 k1 k2 k3 k4 uni uni2 r3 str rest _ Hh _ Hl2 _];
    cbn [head_low] in Hl.
  - discriminate.
  - apply Forall_cons in Ht. destruct Ht as [Hc _].
    apply scalar_not_surrogate in Hc. destruct Hc as (_ & _ & Hc). congruence.
  - apply unescape_ascii in Hx. apply low_range in Hl. lia.
  - cbn [starts_low_escape]. rewrite Hd, Hl. reflexivity.
  - pose proof (join_surrogates_range _ _ Hh Hl2). apply low_range in Hl. lia.
Qed.

Lemma scanned_str_ok (s str rest : pystr) :
  scanned s str rest -> unicode_text s ->
  str_ok str = true /\ unicode_text rest.
Proof.
  induction 1 as [r | c r str rest H1 H2 H3 Hs IH | e x r str rest He Hx Hs IH
                 | h1 h2 h3 h4 uni r2 str rest Hd Hlow Hs IH
                 | h1 h2 h3 h4 k1 k2 k3 k4 uni uni2 r3 str rest Hd Hh Hd2 Hl Hs IH];
    intros Ht.
  - apply Forall_cons in Ht. destruct Ht as [_ Ht]. split; [reflexivity | exact Ht].
  - apply Forall_cons in Ht. destruct Ht as [Hc Ht].
    destruct (IH Ht) as [IH1 IH2]. split; [|exact IH2].
    apply scalar_not_surrogate in Hc. destruct Hc as (Hc1 & Hc2 & _).
    cbn [str_ok]. rewrite Hc1, Hc2, IH1. reflexivity.
  - apply Forall_cons in Ht. destruct Ht as [_ Ht].
    apply Forall_cons in Ht. destruct Ht as [_ Ht].
    destruct (IH Ht) as [IH1 IH2]. split; [|exact IH2].
    apply unescape_ascii in Hx. cbn [str_ok]. rewrite IH1.
    assert (A : is_codepoint x = true) by (apply N.ltb_lt; lia).
    assert (B : is_high_surrogate x = false)
      by (apply andb_false_iff; left; apply N.leb_gt; lia).
    rewrite A, B. reflexivity.
  - assert (Ht2 : unicode_text r2).
    { do 6 (apply Forall_cons in Ht; destruct Ht as [_ Ht]). exact Ht. }
    destruct (IH Ht2) as [IH1 IH2]. split; [|exact IH2].
    apply decode_hex4_bound in Hd. cbn [str_ok]. rewrite IH1.
    assert (A : is_codepoint uni = true) by (apply N.ltb_lt; lia).
    rewrite A. cbn [andb]. rewrite andb_true_r. apply negb_true_iff.
    destruct (is_high_surrogate uni) eqn:Eh; [|reflexivity]. cbn [andb].
    destruct (head_low str) eqn:El; [|exact El].
    pose proof (scanned_head_low _ _ _ Hs Ht2 El) as Hc.
    rewrite (Hlow eq_refl) in Hc. discriminate.
  - assert (Ht3 : unicode_text r3).
    { do 12 (apply Forall_cons in Ht; destruct Ht as [_ Ht]). exact Ht. }
    destruct (IH Ht3) as [IH1 IH2]. split; [|exact IH2].
    pose proof (join_surrogates_range _ _ Hh Hl) as Hr.
    cbn [str_ok]. rewrite IH1.
    assert (A : is_codepoint (join_surrogates uni uni2) = true) by (apply N.ltb_lt; lia).
    assert (B : is_high_surrogate (join_surrogates uni uni2) = false)
      by (apply andb_false_iff; right; apply N.leb_gt; lia).
    rewrite A, B. reflexivity.
Qed.

(** ** Values read from Unicode text are [json_ok] *)

Lemma skip_ws_text (s : pystr) : unicode_text s -> unicode_text (skip_ws s).
Proof.
  induction s as [|c s IH]; intros H; cbn [skip_ws]; [exact H|].
  destruct (is_ws c); [|exact H]. apply IH. apply Forall_cons in H. apply H.
Qed.

Lemma strip_prefix_split (p s r : pystr) : strip_prefix p s = Some r -> s = p ++ r.
Proof.
  revert s. induction p as [|a p IH]; intros s H; cbn [strip_prefix] in H.
  - injection H as <-. reflexivity.
  - destruct s as [|b s]; [discriminate|]. destruct (a =? b) eqn:E; [|discriminate].
    apply N.eqb_eq in E. subst b. cbn [app]. f_equal. apply IH. exact H.
Qed.

Lemma text_app_r (p r : pystr) : unicode_text (p ++ r) -> unicode_text r.
Proof. intros H. apply Forall_app in H. apply H. Qed.

Section JsonInvariant.
Context {PF : PyFloat}.

(** What [scan_atom] consumed, and that it returns an atom. *)
Lemma scan_atom_inv (s : pystr) (v : json) (rest : pystr) :
  scan_atom s = Some (v, rest) ->
  json_ok v = true /\ json_size v = 1%nat /\ exists p, p <> [] /\ s = p ++ rest.
Proof.
  unfold scan_atom. intros H.
  repeat match type of H with
  | match strip_prefix ?p s with _ => _ end = _ =>
      let E := fresh "E" in
      destruct (strip_prefix p s) as [r|] eqn:E;
      [injection H as <- <-; apply strip_prefix_split in E;
       split; [reflexivity | split; [reflexivity | exists p; split; [discriminate | exact E]]] |]
  | match match_number s with _ => _ end = _ =>
      let E := fresh "E" in
      destruct (match_number s) as [[[[i f] e] r]|] eqn:E;
      [injection H as <- <-; apply match_number_split in E;
       destruct E as [E (c & i' & -> & _)];
       split; [unfold number_value; destruct f, e; reflexivity |
       split; [unfold number_value; destruct f, e; reflexivity |
       exists ((c :: i') ++ f ++ e); split; [discriminate | rewrite E, <- !app_assoc; reflexivity]]] |]
  end.
  discriminate.
Qed.

Lemma dict_set_ok (k : pystr) (v : json) (d : list (pystr * json)) :
  str_ok k = true -> json_ok v = true ->
  Forall (fun kv => item_ok kv = true) d ->
  Forall (fun kv => item_ok kv = true) (dict_set k v d).
Proof.
  intros Hk Hv. induction d as [|[k' v'] d IH]; intros H; cbn [dict_set].
  - constructor; [|constructor]. unfold item_ok. cbn [fst snd]. rewrite Hk, Hv. reflexivity.
  - apply Forall_cons in H. destruct H as [H1 H2].
    destruct (decide (k = k')) as [<- | Hne].
    + constructor; [|exact H2]. unfold item_ok. cbn [fst snd]. rewrite Hk, Hv. reflexivity.
    + constructor; [exact H1 | apply IH; exact H2].
Qed.

Lemma dict_set_keys (k : pystr) (v : json) (d : list (pystr * json)) :
  List.map fst (dict_set k v d)
  = if bool_decide (k ∈ List.map fst d) then List.map fst d else List.map fst d ++ [k].
Proof.
  induction d as [|[k' v'] d IH]; cbn [dict_set List.map fst].
  - rewrite bool_decide_eq_false_2 by apply not_elem_of_nil. reflexivity.
  - destruct (decide (k = k')) as [<- | Hne].
    + rewrite bool_decide_eq_true_2 by left. reflexivity.
    + cbn [List.map fst]. rewrite IH.
      destruct (bool_decide (k ∈ List.map fst d)) eqn:E.
      * apply bool_decide_eq_true in E.
        rewrite bool_decide_eq_true_2 by (right; exact E). reflexivity.
      * apply bool_decide_eq_false in E.
        rewrite bool_decide_eq_false_2; [reflexivity|].
        intros Hin. apply elem_of_cons in Hin. destruct Hin; contradiction.
Qed.

Lemma dict_set_nodup (k : pystr) (v : json) (d : list (pystr * json)) :
  NoDup (List.map fst d) -> NoDup (List.map fst (dict_set k v d)).
Proof.
  intros H. rewrite dict_set_keys.
  destruct (bool_decide (k ∈ List.map fst d)) eqn:E; [exact H|].
  apply bool_decide_eq_false in E.
  apply NoDup_app. split; [exact H|]. split.
  - intros x Hx Hx'. apply list_elem_of_singleton in Hx'. subst x. contradiction.
  - apply NoDup_singleton.
Qed.

Lemma dict_fold_ok (pairs acc : list (pystr * json)) :
  Forall (fun kv => item_ok kv = true) pairs ->
  Forall (fun kv => item_ok kv = true) acc -> NoDup (List.map fst acc) ->
  let d := fold_left (fun d kv => dict_set (fst kv) (snd kv) d) pairs acc in
  Forall (fun kv => item_ok kv = true) d /\ NoDup (List.map fst d).
Proof.
  revert acc. induction pairs as [|[k v] l IH]; intros acc Hl Ha Hn; cbn [fold_left].
  - split; assumption.
  - apply Forall_cons in Hl. destruct Hl as [Hkv Hl].
    unfold item_ok in Hkv. cbn [fst snd] in Hkv |- *.
    apply andb_true_iff in Hkv. destruct Hkv as [Hk Hv].
    apply IH; [exact Hl | apply dict_set_ok; assumption | apply dict_set_nodup; assumption].
Qed.

Lemma dict_ok (pairs : list (pystr * json)) :
  Forall (fun kv => item_ok kv = true) pairs -> json_ok (JObj (dict pairs)) = true.
Proof.
  intros H. destruct (dict_fold_ok pairs [] H (List.Forall_nil _) (NoDup_nil_2)) as [H1 H2].
  cbn [json_ok]. apply andb_true_iff. split.
  - apply forallb_Forall_true. exact H1.
  - apply bool_decide_eq_true. exact H2.
Qed.

Lemma scan_once_ok (fuel : nat) :
  (forall s v rest, scan_once fuel s = Some (v, rest) -> unicode_text s ->
     json_ok v = true /\ unicode_text rest)
  /\ (forall s vs rest, parse_elems fuel s = Some (vs, rest) -> unicode_text s ->
     Forall (fun v => json_ok v = true) vs /\ unicode_text rest)
  /\ (forall s ps rest, parse_pairs fuel s = Some (ps, rest) -> unicode_text s ->
     Forall (fun kv => item_ok kv = true) ps /\ unicode_text rest).
Proof.
  induction fuel as [|f (IH1 & IH2 & IH3)].
  { repeat split; discriminate. }
  split; [|split].
  - intros s v rest H Ht. destruct s as [|c r]; [discriminate|].
    cbn [scan_once] in H.
    assert (Hr : unicode_text r) by (apply Forall_cons in Ht; apply Ht).
    destruct (c =? 34).
    { destruct (scanstring r) as [[str rest']|] eqn:E; [|discriminate].
      injection H as <- <-. apply scanstring_scanned in E.
      apply (scanned_str_ok _ _ _ E Hr). }
    destruct (c =? 123).
    { pose proof (skip_ws_text r Hr) as Hw.
      destruct (skip_ws r) as [|c' r'] eqn:Ew; [discriminate|].
      destruct (c' =? 125).
      - injection H as <- <-. split; [reflexivity|].
        apply Forall_cons in Hw. apply Hw.
      - destruct (parse_pairs f (c' :: r')) as [[ps rest']|] eqn:E; [|discriminate].
        injection H as <- <-. destruct (IH3 _ _ _ E Hw) as [A B].
        split; [apply dict_ok; exact A | exact B]. }
    destruct (c =? 91).
    { pose proof (skip_ws_text r Hr) as Hw.
      destruct (skip_ws r) as [|c' r'] eqn:Ew; [discriminate|].
      destruct (c' =? 93).
      - injection H as <- <-. split; [reflexivity|].
        apply Forall_cons in Hw. apply Hw.
      - destruct (parse_elems f (c' :: r')) as [[vs rest']|] eqn:E; [|discriminate].
        injection H as <- <-. destruct (IH2 _ _ _ E Hw) as [A B].
        split; [cbn [json_ok]; apply forallb_Forall_true; exact A | exact B]. }
    destruct (scan_atom_inv _ _ _ H) as (A & _ & p & _ & B).
    split; [exact A|]. rewrite B in Ht. apply (text_app_r _ _ Ht).
  - intros s vs rest H Ht. cbn [parse_elems] in H.
    destruct (scan_once f s) as [[v r]|] eqn:E; [|discriminate].
    destruct (IH1 _ _ _ E Ht) as [A B].
    pose proof (skip_ws_text r B) as Hw.
    destruct (skip_ws r) as [|c r'] eqn:Ew; [discriminate|].
    assert (Hr' : unicode_text r') by (apply Forall_cons in Hw; apply Hw).
    destruct (c =? 93).
    { injection H as <- <-. split; [constructor; [exact A | constructor] | exact Hr']. }
    destruct (c =? 44); [|discriminate].
    destruct (parse_elems f (skip_ws r')) as [[vs' rest']|] eqn:E2; [|discriminate].
    injection H as <- <-.
    destruct (IH2 _ _ _ E2 (skip_ws_text _ Hr')) as [C D].
    split; [constructor; assumption | exact D].
  - intros s ps rest H Ht. cbn [parse_pairs] in H.
    destruct s as [|c r]; [discriminate|].
    assert (Hr : unicode_text r) by (apply Forall_cons in Ht; apply Ht).
    destruct (c =? 34); [|discriminate].
    destruct (scanstring r) as [[key r1]|] eqn:Ek; [|discriminate].
    apply scanstring_scanned in Ek.
    destruct (scanned_str_ok _ _ _ Ek Hr) as [Hk Hr1].
    pose proof (skip_ws_text r1 Hr1) as Hw1.
    destruct (skip_ws r1) as [|c1 r2] eqn:Ew1; [discriminate|].
    assert (Hr2 : unicode_text r2) by (apply Forall_cons in Hw1; apply Hw1).
    destruct (c1 =? 58); [|discriminate].
    destruct (scan_once f (skip_ws r2)) as [[v r3]|] eqn:Ev; [|discriminate].
    destruct (IH1 _ _ _ Ev (skip_ws_text _ Hr2)) as [Hv Hr3].
    pose proof (skip_ws_text r3 Hr3) as Hw3.
    destruct (skip_ws r3) as [|c3 r4] eqn:Ew3; [discriminate|].
    assert (Hr4 : unicode_text r4) by (apply Forall_cons in Hw3; apply Hw3).
    assert (Hkv : item_ok (key, v) = true).
    { unfold item_ok. cbn [fst snd]. rewrite Hk, Hv. reflexivity. }
    destruct (c3 =? 125).
    { injection H as <- <-. split; [constructor; [exact Hkv | constructor] | exact Hr4]. }
    destruct (c3 =? 44); [|discriminate].
    destruct (parse_pairs f (skip_ws r4)) as [[ps' rest']|] eqn:E2; [|discriminate].
    injection H as <- <-.
    destruct (IH3 _ _ _ E2 (skip_ws_text _ Hr4)) as [C D].
    split; [constructor; assumption | exact D].
Qed.

Lemma json_loads_ok (s : pystr) (v : json) :
  unicode_text s -> json_loads s = Some v -> json_ok v = true.
Proof.
  unfold json_loads. intros Ht H.
  destruct (scan_once (S (length (skip_ws s))) (skip_ws s)) as [[v' rest]|] eqn:E;
    [|discriminate].
  destruct (skip_ws rest); [|discriminate]. injection H as <-.
  apply (proj1 (scan_once_ok _) _ _ _ E (skip_ws_text _ Ht)).
Qed.

(** Parsing and printing a valid text, then parsing again, gives the
    value of the first parse. *)
Lemma json_loads_dumps_loads {PL : PyFloatLaws} (s : pystr) (v : json) :
  unicode_text s -> json_loads s = Some v ->
  json_loads (json_dumps v) = Some v.
Proof. intros Ht H. apply json_loads_dumps. apply (json_loads_ok s v Ht H). Qed.

(** ** The fuel of [json_loads] is enough *)

Lemma skip_ws_length (s : pystr) : (length (skip_ws s) <= length s)%nat.
Proof.
  induction s as [|c s IH]; cbn [skip_ws]; [lia|].
  destruct (is_ws c); cbn [length]; lia.
Qed.

Lemma scanstring_length (s str rest : pystr) :
  scanstring s = Some (str, rest) -> (length rest < length s)%nat.
Proof. intros H. apply scanstring_scanned in H. apply (scanned_length _ _ _ H). Qed.

Lemma scan_once_fuel (fuel : nat) :
  (forall s v rest, scan_once fuel s = Some (v, rest) ->
     (length rest < length s)%nat
     /\ forall f', (length s - length rest <= f')%nat -> scan_once f' s = Some (v, rest))
  /\ (forall s vs rest, parse_elems fuel s = Some (vs, rest) ->
     (length rest < length s)%nat
     /\ forall f', (length s - length rest <= f')%nat -> parse_elems f' s = Some (vs, rest))
  /\ (forall s ps rest, parse_pairs fuel s = Some (ps, rest) ->
     (length rest < length s)%nat
     /\ forall f', (length s - length rest <= f')%nat -> parse_pairs f' s = Some (ps, rest)).
Proof.
  induction fuel as [|f (IH1 & IH2 & IH3)].
  { repeat split; discriminate. }
  split; [|split].
  - intros s v rest H. destruct s as [|c r]; [discriminate|].
    assert (G : (length rest < length (c :: r))%nat ->
                (forall f', scan_once (S f') (c :: r) = Some (v, rest)) ->
                (length rest < length (c :: r))%nat
                /\ forall f', (length (c :: r) - length rest <= f')%nat ->
                     scan_once f' (c :: r) = Some (v, rest)).
    { intros A B. split; [exact A|]. intros [|f'] Hf; [lia | apply B]. }
    cbn [scan_once] in H. cbn [length].
    destruct (c =? 34) eqn:E34.
    { destruct (scanstring r) as [[str rest']|] eqn:E; [|discriminate].
      injection H as <- <-. pose proof (scanstring_length _ _ _ E) as L.
      apply G; [cbn [length]; lia|]. intros f'. cbn [scan_once].
      rewrite E34, E. reflexivity. }
    destruct (c =? 123) eqn:E123.
    { pose proof (skip_ws_length r) as Hw.
      destruct (skip_ws r) as [|c' r'] eqn:Ew; [discriminate|]. cbn [length] in Hw.
      destruct (c' =? 125) eqn:E125.
      - injection H as <- <-. apply G; [cbn [length]; lia|]. intros f'.
        cbn [scan_once]. rewrite E34, E123, Ew, E125. reflexivity.
      - destruct (parse_pairs f (c' :: r')) as [[ps rest']|] eqn:E; [|discriminate].
        injection H as <- <-. destruct (IH3 _ _ _ E) as [A B]. cbn [length] in A, B.
        split; [lia|]. intros [|f'] Hf; [lia|].
        cbn [scan_once]. rewrite E34, E123, Ew, E125, (B f') by lia. reflexivity. }
    destruct (c =? 91) eqn:E91.
    { pose proof (skip_ws_length r) as Hw.
      destruct (skip_ws r) as [|c' r'] eqn:Ew; [discriminate|]. cbn [length] in Hw.
      destruct (c' =? 93) eqn:E93.
      - injection H as <- <-. apply G; [cbn [length]; lia|]. intros f'.
        cbn [scan_once]. rewrite E34, E123, E91, Ew, E93. reflexivity.
      - destruct (parse_elems f (c' :: r')) as [[vs rest']|] eqn:E; [|discriminate].
        injection H as <- <-. destruct (IH2 _ _ _ E) as [A B]. cbn [length] in A, B.
        split; [lia|]. intros [|f'] Hf; [lia|].
        cbn [scan_once]. rewrite E34, E123, E91, Ew, E93, (B f') by lia. reflexivity. }
    destruct (scan_atom_inv _ _ _ H) as (_ & _ & p & Hp & Hs).
    apply G.
    + rewrite Hs, length_app. destruct p; [congruence | cbn [length]; lia].
    + intros f'. cbn [scan_once]. rewrite E34, E123, E91. exact H.
  - intros s vs rest H. cbn [parse_elems] in H.
    destruct (scan_once f s) as [[v r]|] eqn:E; [|discriminate].
    destruct (IH1 _ _ _ E) as [A B].
    pose proof (skip_ws_length r) as Hw.
    destruct (skip_ws r) as [|c r'] eqn:Ew; [discriminate|]. cbn [length] in Hw.
    destruct (c =? 93) eqn:E93.
    { injection H as <- <-. split; [lia|]. intros [|f'] Hf; [lia|].
      cbn [parse_elems]. rewrite (B f') by lia. rewrite Ew, E93. reflexivity. }
    destruct (c =? 44) eqn:E44; [|discriminate].
    destruct (parse_elems f (skip_ws r')) as [[vs' rest']|] eqn:E2; [|discriminate].
    injection H as <- <-. destruct (IH2 _ _ _ E2) as [C D].
    pose proof (skip_ws_length r') as Hw'.
    split; [lia|]. intros [|f'] Hf; [lia|].
    cbn [parse_elems]. rewrite (B f') by lia. rewrite Ew, E93, E44.
    rewrite (D f') by lia. reflexivity.
  - intros s ps rest H. cbn [parse_pairs] in H.
    destruct s as [|c r]; [discriminate|].
    destruct (c =? 34) eqn:E34; [|discriminate].
    destruct (scanstring r) as [[key r1]|] eqn:Ek; [|discriminate].
    pose proof (scanstring_length _ _ _ Ek) as Lk.
    pose proof (skip_ws_length r1) as Hw1.
    destruct (skip_ws r1) as [|c1 r2] eqn:Ew1; [discriminate|]. cbn [length] in Hw1.
    destruct (c1 =? 58) eqn:E58; [|discriminate].
    destruct (scan_once f (skip_ws r2)) as [[v r3]|] eqn:Ev; [|discriminate].
    destruct (IH1 _ _ _ Ev) as [A B].
    pose proof (skip_ws_length r2) as Hw2.
    pose proof (skip_ws_length r3) as Hw3.
    destruct (skip_ws r3) as [|c3 r4] eqn:Ew3; [discriminate|]. cbn [length] in Hw3.
    cbn [length].
    destruct (c3 =? 125) eqn:E125.
    { injection H as <- <-. split; [lia|]. intros [|f'] Hf; [lia|].
      cbn [parse_pairs]. rewrite E34, Ek, Ew1, E58, (B f') by lia.
      rewrite Ew3, E125. reflexivity. }
    destruct (c3 =? 44) eqn:E44; [|discriminate].
    destruct (parse_pairs f (skip_ws r4)) as [[ps' rest']|] eqn:E2; [|discriminate].
    injection H as <- <-. destruct (IH3 _ _ _ E2) as [C D].
    pose proof (skip_ws_length r4) as Hw4.
    split; [lia|]. intros [|f'] Hf; [lia|].
    cbn [parse_pairs]. rewrite E34, Ek, Ew1, E58, (B f') by lia.
    rewrite Ew3, E125, E44, (D f') by lia. reflexivity.
Qed.

(** Whatever some amount of fuel decodes, [json_loads] decodes. *)
Lemma json_loads_fuel (s : pystr) (fuel : nat) (v : json) (rest : pystr) :
  scan_once fuel (skip_ws s) = Some (v, rest) -> skip_ws rest = [] ->
  json_loads s = Some v.
Proof.
  intros H Hr. unfold json_loads.
  destruct (proj1 (scan_once_fuel fuel) _ _ _ H) as [_ B].
  rewrite (B (S (length (skip_ws s)))) by lia. rewrite Hr. reflexivity.
Qed.

End JsonInvariant.

(** ** ASCII text survives [encode] and [decode] *)

Lemma utf8_encode_ascii (s : pystr) : is_ascii s -> utf8_encode_N s = Some s.
Proof.
  induction 1 as [|c s Hc Hs IH]; cbn [utf8_encode_N]; [reflexivity|].
  unfold utf8_encode_char. apply N.ltb_lt in Hc. rewrite Hc, IH. reflexivity.
Qed.

Lemma utf8_decode_ascii (s : pystr) : is_ascii s -> utf8_decode_N s = Some s.
Proof.
  induction 1 as [|c s Hc Hs IH]; cbn [utf8_decode_N]; [reflexivity|].
  apply N.ltb_lt in Hc. rewrite Hc, IH. reflexivity.
Qed.

Lemma bytes_of_N_ascii (s : pystr) :
  is_ascii s -> exists bs, bytes_of_N s = Some bs /\ List.map Byte.to_N bs = s.
Proof.
  induction 1 as [|c s Hc Hs (bs & IH1 & IH2)]; cbn [bytes_of_N].
  - exists []. split; reflexivity.
  - destruct (Byte.of_N c) as [b|] eqn:E.
    + rewrite IH1. exists (b :: bs). split; [reflexivity|].
      cbn [List.map]. rewrite IH2. f_equal. apply Byte.to_of_N. exact E.
    + apply Byte.of_N_None_iff in E. lia.
Qed.

Lemma decode_encode_ascii (s : pystr) :
  is_ascii s -> exists bs, encode s = Some bs /\ decode bs = Some s.
Proof.
  intros H. unfold encode, decode. rewrite (utf8_encode_ascii s H).
  destruct (bytes_of_N_ascii s H) as (bs & H1 & H2).
  exists bs. split; [exact H1|]. rewrite H2. apply utf8_decode_ascii. exact H.
Qed.

(** ** [json_dumps] prints ASCII *)

Lemma is_ascii_app (s t : pystr) : is_ascii s -> is_ascii t -> is_ascii (s ++ t).
Proof. intros H1 H2. apply Forall_app. split; assumption. Qed.

Lemma is_ascii_check (s : pystr) :
  forallb (fun c => c <? 128) s = true -> is_ascii s.
Proof.
  intros H. apply forallb_Forall_true in H.
  eapply Forall_impl; [exact H|]. intros c Hc. apply N.ltb_lt. exact Hc.
Qed.

Lemma hex_char_ascii (d : N) : d < 16 -> hex_char d < 128.
Proof. unfold hex_char. intros H. destruct (d <? 10); lia. Qed.

Lemma hex4_ascii (n : N) : is_ascii (hex4 n).
Proof.
  unfold hex4. repeat constructor; apply hex_char_ascii; apply N.mod_lt; discriminate.
Qed.

Lemma escape_char_ascii (c : N) : is_ascii (escape_char c).
Proof.
  unfold escape_char.
  repeat match goal with
         | |- is_ascii (if ?b then _ else _) =>
             let E := fresh "E" in destruct b eqn:E
         end;
    try (apply is_ascii_check; reflexivity).
  - apply andb_true_iff in E6. destruct E6 as [_ E6]. apply N.leb_le in E6.
    constructor; [lia | constructor].
  - constructor; [lia|]. constructor; [lia|]. apply hex4_ascii.
  - apply is_ascii_app; (constructor; [lia|]; constructor; [lia|]; apply hex4_ascii).
Qed.

Lemma encode_basestring_ascii_ascii (s : pystr) : is_ascii (encode_basestring_ascii s).
Proof.
  unfold encode_basestring_ascii. constructor; [lia|].
  apply is_ascii_app; [|apply is_ascii_check; reflexivity].
  induction s as [|c s IH]; cbn [flat_map]; [constructor|].
  apply is_ascii_app; [apply escape_char_ascii | exact IH].
Qed.

Lemma uint_chars_ascii (d : uint) : is_ascii (uint_chars d).
Proof.
  induction d; cbn [uint_chars]; constructor; (lia || assumption).
Qed.

Lemma int_repr_ascii (z : Z) : is_ascii (int_repr z).
Proof.
  unfold int_repr. destruct (Z.to_int z).
  - apply uint_chars_ascii.
  - constructor; [lia | apply uint_chars_ascii].
Qed.

Lemma scan_digits_ascii (s ds r : pystr) : scan_digits s = (ds, r) -> is_ascii ds.
Proof.
  revert ds r. induction s as [|c s IH]; intros ds r H; cbn [scan_digits] in H.
  - injection H as <- <-. constructor.
  - destruct (is_digit c) eqn:Ed.
    + destruct (scan_digits s) as [ds' r'] eqn:E. injection H as <- <-.
      apply digit_range in Ed. constructor; [lia | apply (IH _ _ eq_refl)].
    + injection H as <- <-. constructor.
Qed.

Lemma match_integer_ascii (s i r : pystr) : match_integer s = Some (i, r) -> is_ascii i.
Proof.
  unfold match_integer. intros H.
  assert (G : forall sign s1, is_ascii sign ->
    match s1 with
    | c :: r0 =>
        if c =? 48 then Some (sign ++ [48], r0)
        else if is_digit c
        then let '(ds, rest) := scan_digits r0 in Some (sign ++ c :: ds, rest)
        else None
    | [] => None
    end = Some (i, r) -> is_ascii i).
  { intros sign s1 Hsign G. destruct s1 as [|c r0]; [discriminate|].
    destruct (c =? 48).
    - injection G as <- <-. apply is_ascii_app; [exact Hsign|]. apply is_ascii_check. reflexivity.
    - destruct (is_digit c) eqn:Ed; [|discriminate].
      destruct (scan_digits r0) as [ds rest] eqn:E. injection G as <- <-.
      apply digit_range in Ed. apply is_ascii_app; [exact Hsign|].
      constructor; [lia | apply (scan_digits_ascii _ _ _ E)]. }
  destruct s as [|c s']; [discriminate|].
  destruct (c =? 45).
  - apply (G [45] s'); [apply is_ascii_check; reflexivity | exact H].
  - apply (G [] (c :: s')); [constructor | exact H].
Qed.

Lemma match_frac_ascii (s f r : pystr) : match_frac s = (f, r) -> is_ascii f.
Proof.
  unfold match_frac. destruct s as [|c s']; intros H.
  - injection H as <- <-. constructor.
  - destruct (c =? 46).
    + destruct (scan_digits s') as [ds rest] eqn:E. apply scan_digits_ascii in E.
      destruct ds; injection H as <- <-; [constructor|].
      constructor; [lia | exact E].
    + injection H as <- <-. constructor.
Qed.

Lemma match_exp_ascii (s e r : pystr) : match_exp s = (e, r) -> is_ascii e.
Proof.
  unfold match_exp. destruct s as [|c s']; intros H.
  - injection H as <- <-. constructor.
  - destruct ((c =? 101) || (c =? 69)) eqn:Ec.
    + assert (Hc : c < 128).
      { apply orb_true_iff in Ec. destruct Ec as [Ec | Ec]; apply N.eqb_eq in Ec; lia. }
      destruct s' as [|c2 r2].
      * cbn [scan_digits] in H. injection H as <- <-. constructor.
      * destruct ((c2 =? 43) || (c2 =? 45)) eqn:Ec2.
        -- assert (Hc2 : c2 < 128).
           { apply orb_true_iff in Ec2. destruct Ec2 as [E2 | E2]; apply N.eqb_eq in E2; lia. }
           destruct (scan_digits r2) as [ds rest] eqn:E. apply scan_digits_ascii in E.
           destruct ds; injection H as <- <-; [constructor|].
           constructor; [exact Hc|]. constructor; [exact Hc2 | exact E].
        -- destruct (scan_digits (c2 :: r2)) as [ds rest] eqn:E.
           apply scan_digits_ascii in E.
           destruct ds; injection H as <- <-; [constructor|].
           constructor; [exact Hc | exact E].
    + injection H as <- <-. constructor.
Qed.

Lemma float_lexeme_ascii (t : pystr) : float_lexeme t -> is_ascii t.
Proof.
  intros [H | [H | [H | (i & f & e & Hm & _)]]];
    try (rewrite H; apply is_ascii_check; reflexivity).
  destruct (match_number_split _ _ _ _ _ Hm) as [Ht _]. rewrite app_nil_r in Ht.
  unfold match_number in Hm.
  destruct (match_integer t) as [[i0 r0]|] eqn:Ei; [|discriminate].
  destruct (match_frac r0) as [f0 r1] eqn:Ef.
  destruct (match_exp r1) as [e0 r2] eqn:Ee.
  injection Hm as <- <- <- ->. rewrite Ht.
  apply is_ascii_app; [apply (match_integer_ascii _ _ _ Ei)|].
  apply is_ascii_app; [apply (match_frac_ascii _ _ _ Ef) | apply (match_exp_ascii _ _ _ Ee)].
Qed.

Lemma join_ascii (sep : pystr) (parts : list pystr) :
  is_ascii sep -> Forall is_ascii parts -> is_ascii (join sep parts).
Proof.
  intros Hs. induction 1 as [|p ps Hp Hps IH]; [constructor|].
  destruct ps as [|q ps]; [exact Hp|]. rewrite join_cons2.
  apply is_ascii_app; [exact Hp|]. apply is_ascii_app; [exact Hs | exact IH].
Qed.

Section DumpsAscii.
Context {PF : PyFloat} {PL : PyFloatLaws}.

Lemma json_dumps_ascii (v : json) : is_ascii (json_dumps v).
Proof.
  induction v as [ | b | z | x | s | l IH | items IH] using json_nested_ind;
    cbn [json_dumps].
  - apply is_ascii_check. reflexivity.
  - destruct b; apply is_ascii_check; reflexivity.
  - apply int_repr_ascii.
  - apply float_lexeme_ascii. apply floatstr_lexeme.
  - apply encode_basestring_ascii_ascii.
  - constructor; [lia|]. apply is_ascii_app; [|apply is_ascii_check; reflexivity].
    apply join_ascii; [apply is_ascii_check; reflexivity|].
    apply Forall_map. exact IH.
  - constructor; [lia|]. apply is_ascii_app; [|apply is_ascii_check; reflexivity].
    apply join_ascii; [apply is_ascii_check; reflexivity|].
    apply Forall_map. eapply Forall_impl; [exact IH|]. intros kv Hkv. cbn beta.
    apply is_ascii_app; [apply encode_basestring_ascii_ascii|].
    apply is_ascii_app; [apply is_ascii_check; reflexivity | exact Hkv].
Qed.

(** The blob made from a parsed descriptor parses back to it. *)
Lemma blob_roundtrip (v : json) :
  json_ok v = true ->
  exists bs, encode (json_dumps v) = Some bs /\ decode bs ≫= json_loads = Some v.
Proof.
  intros Hok. destruct (decode_encode_ascii _ (json_dumps_ascii v)) as (bs & H1 & H2).
  exists bs. split; [exact H1|]. rewrite H2. cbn. apply json_loads_dumps. exact Hok.
Qed.

End DumpsAscii.

(** ** [modify_plugin], statement by statement *)

Section ManagerFacts.
Context {PF : PyFloat}.
Variable is_valid : DB -> option Z -> plugin_data -> bool.

(** [modify_plugin], statement by statement. *)
Lemma modify_plugin_eq (now : Z) (args : modify_args) (db : DB) :
  modify_plugin is_valid now args db =
  match plugins db !! modify_id args with
  | None => (Err NameError, db)
  | Some p =>
      if is_valid db (Some (modify_id args)) (modify_data p args) then
        let p1 := with_repo_image p args in
        let db1 := set_plugins db (<[modify_id args := p1]> (plugins db)) in
        match owner_to_add db args with
        | None =>
            (Ok tt, set_plugins db1 (<[modify_id args := with_modification_date p1 now]>
                                       (plugins db1)))
        | Some u =>
            if bool_decide (u ∈ users db) then
              let db2 := set_owners db1
                           (<[modify_id args :=
                                list_to_set (elements (owners_of db (modify_id args)) ++ [u])]>
                              (plugin_owner db)) in
              (Ok tt, set_plugins db2 (<[modify_id args := with_modification_date p1 now]>
                                         (plugins db2)))
            else (Err OwnerNotFoundError, db1)
        end
      else (Err ValidationError, db)
  end.
Proof.
  unfold modify_plugin, bind, get_plugin.
  destruct (plugins db !! modify_id args) as [p|]; [|reflexivity].
  unfold serializer_is_valid. fold (modify_data p args).
  destruct (is_valid db (Some (modify_id args)) (modify_data p args)); [|reflexivity].
  unfold owner_to_add. cbn.
  destruct (newowner args) as [[|c u]|]; cbn; try reflexivity.
  unfold owner_values, bind, owners_of. cbn.
  destruct (bool_decide (c :: u ∈ default ∅ (plugin_owner db !! modify_id args)));
    cbn; [reflexivity|].
  unfold validate_new_owner. cbn.
  destruct (bool_decide (c :: u ∈ users db)); reflexivity.
Qed.

Lemma owners_of_set_plugins (db : DB) (m : gmap Z Plugin) (pk : Z) :
  owners_of (set_plugins db m) pk = owners_of db pk.
Proof. reflexivity. Qed.

Lemma owners_of_set_owners_eq (db : DB) (m : gmap Z (gset pystr)) (pk : Z) (s : gset pystr) :
  owners_of (set_owners db (<[pk := s]> m)) pk = s.
Proof. unfold owners_of, set_owners. cbn. rewrite lookup_insert_eq. reflexivity. Qed.

Lemma owners_of_set_owners_ne (db : DB) (pk pk' : Z) (s : gset pystr) :
  pk <> pk' ->
  owners_of (set_owners db (<[pk := s]> (plugin_owner db))) pk' = owners_of db pk'.
Proof. intros H. unfold owners_of, set_owners. cbn. rewrite lookup_insert_ne by exact H. reflexivity. Qed.

Lemma list_to_set_elements_snoc (s : gset pystr) (u : pystr) :
  list_to_set (elements s ++ [u]) = s ∪ {[u]}.
Proof.
  rewrite list_to_set_app_L, list_to_set_elements_L. cbn [list_to_set].
  rewrite (right_id_L ∅ (∪)). reflexivity.
Qed.

Lemma owner_to_add_Some (db : DB) (args : modify_args) (u : pystr) :
  owner_to_add db args = Some u ->
  newowner args = Some u /\ u <> [] /\ u ∉ owners_of db (modify_id args).
Proof.
  unfold owner_to_add. destruct (newowner args) as [[|c w]|]; try discriminate.
  destruct (bool_decide (c :: w ∈ owners_of db (modify_id args))) eqn:E; [discriminate|].
  intros H. injection H as <-. apply bool_decide_eq_false in E.
  split; [reflexivity | split; [discriminate | exact E]].
Qed.

Lemma owner_to_add_None (db : DB) (args : modify_args) :
  owner_to_add db args = None ->
  forall u, newowner args = Some u -> u = [] \/ u ∈ owners_of db (modify_id args).
Proof.
  unfold owner_to_add. intros H u Hu. rewrite Hu in H. destruct u as [|c w]; [left; reflexivity|].
  destruct (bool_decide (c :: w ∈ owners_of db (modify_id args))) eqn:E; [|discriminate].
  right. apply bool_decide_eq_true in E. exact E.
Qed.

(** The owners of every plugin after [modify_plugin], whatever it
    returns. *)
Lemma modify_plugin_owners (now : Z) (args : modify_args) (db : DB) (pk : Z) :
  owners_of (snd (modify_plugin is_valid now args db)) pk = owners_of db pk
  \/ exists u, owner_to_add db args = Some u /\ u ∈ users db /\ pk = modify_id args
               /\ fst (modify_plugin is_valid now args db) = Ok tt
               /\ owners_of (snd (modify_plugin is_valid now args db)) pk
                  = owners_of db pk ∪ {[u]}.
Proof.
  rewrite modify_plugin_eq.
  destruct (plugins db !! modify_id args) as [p|]; [|left; reflexivity].
  destruct (is_valid db (Some (modify_id args)) (modify_data p args)); [|left; reflexivity].
  cbv zeta. destruct (owner_to_add db args) as [u|] eqn:Eu; [|left; reflexivity].
  destruct (bool_decide (u ∈ users db)) eqn:Ex; [|left; reflexivity].
  apply bool_decide_eq_true in Ex. cbn [snd fst].
  rewrite owners_of_set_plugins.
  destruct (decide (modify_id args = pk)) as [<- | Hne].
  - right. exists u. repeat split; try assumption; try reflexivity.
    unfold owners_of at 1. cbn. rewrite lookup_insert_eq. cbn.
    apply list_to_set_elements_snoc.
  - left. unfold owners_of at 1. cbn. rewrite lookup_insert_ne by exact Hne. reflexivity.
Qed.

End ManagerFacts.

(** ** The manager's operations *)

Section Claims.
Context {PF : PyFloat}.
Variable is_valid : DB -> option Z -> plugin_data -> bool.
Variable storage_name : DB -> pystr -> pystr.

Lemma get_plugin_descriptor_file_string {PL : PyFloatLaws} (args : add_args) (s : pystr) :
  truthy (descriptorfile args) = false -> descriptorstring args = Some s ->
  unicode_text s ->
  match json_loads s with
  | None => get_plugin_descriptor_file args = Err JSONDecodeError
  | Some v =>
      exists content,
        encode (json_dumps v) = Some content
        /\ get_plugin_descriptor_file args
           = Ok (ContentFile (add_name args ++ lit ".json") content)
        /\ decode content ≫= json_loads = Some v
  end.
Proof.
  intros Hf Hs Ht. unfold get_plugin_descriptor_file. rewrite Hf, Hs.
  destruct (json_loads s) as [v|] eqn:E; [|reflexivity].
  destruct (blob_roundtrip v (json_loads_ok s v Ht E)) as (bs & H1 & H2).
  exists bs. rewrite H1. repeat split; [exact H2].
Qed.

(** C1, as amended.  When [add_plugin] creates a record for a descriptor
    that is Unicode text (no surrogate code point in it) which
    [json.loads] accepts, with a top-level [version], the record's
    version is the one the descriptor declares; it is also the one the
    blob stored with the record declares. *)
Theorem add_plugin_version {PL : PyFloatLaws}
    (fs : pystr -> option (list Byte.byte)) (now : Z) (args : add_args)
    (db db' : DB) (pk : Z) (s : pystr) (v : json) :
  descriptor_source fs args = Some s -> unicode_text s ->
  declared_version s = Some v ->
  add_plugin is_valid storage_name now args db = (Ok pk, db') ->
  exists row fname content,
    plugins db' !! pk = Some row
    /\ version row = v
    /\ descriptor_file row = ContentFile fname content
    /\ match decode content with
       | Some text => declared_version text
       | None => None
       end = Some v.
Proof.
  unfold descriptor_source, declared_version. intros Hsrc Ht Hv Hadd.
  unfold add_plugin, bind, lift in Hadd.
  destruct (truthy (descriptorfile args)) eqn:Ef.
  - unfold get_plugin_descriptor_file in Hadd. rewrite Ef in Hadd.
    destruct (descriptorfile args); cbn in Hadd; discriminate.
  - pose proof (get_plugin_descriptor_file_string args s Ef Hsrc Ht) as Hd.
    destruct (json_loads s) as [[ | | | | | | items]|] eqn:E; try discriminate.
    destruct Hd as (content & _ & Hd & Hrt). rewrite Hd in Hadd.
    unfold get_plugin_version_from_app_representation in Hadd.
    rewrite Hrt, Hv in Hadd.
    unfold serializer_is_valid in Hadd.
    destruct (is_valid db None _); [|discriminate].
    unfold User_objects_get in Hadd.
    destruct (bool_decide (add_owner args ∈ users db)); [|discriminate].
    unfold serializer_create in Hadd. injection Hadd as <- <-.
    eexists _, _, content. cbn [plugins]. rewrite lookup_insert_eq.
    split; [reflexivity|]. split; [reflexivity|]. split; [reflexivity|].
    destruct (decode content) as [text|]; [|discriminate].
    cbn in Hrt. rewrite Hrt. exact Hv.
Qed.

(** C2. [run] on an add command with both descriptor options, or with
    neither, fails with a usage error and leaves the database as it was. *)
Theorem run_add_descriptor_usage (now : Z) (a : add_args) (db : DB) :
  (is_Some (descriptorfile a) /\ is_Some (descriptorstring a))
  \/ (descriptorfile a = None /\ descriptorstring a = None) ->
  run is_valid storage_name now (add a) db = (Err UsageError, db).
Proof.
  intros [[[f Hf] [s Hs]] | [Hf Hs]]; unfold run, bind, lift, parse_args;
    rewrite Hf, Hs; cbn; rewrite ?Hf, ?Hs; reflexivity.
Qed.

(** C3, as amended.  A [modify] that fails because the new owner is not
    a registered user has already written the new repository and image
    into the row; the other fields of the row, its owners and every other
    row are as before. *)
Theorem modify_unknown_owner_partial (now : Z) (args : modify_args)
    (db db' : DB) (p : Plugin) :
  plugins db !! modify_id args = Some p ->
  modify_plugin is_valid now args db = (Err OwnerNotFoundError, db') ->
  (exists u, newowner args = Some u /\ u ∉ users db)
  /\ plugins db' !! modify_id args
     = Some {| name := name p;
               public_repo := modify_publicrepo args;
               dock_image := modify_dockerimage args;
               descriptor_file := descriptor_file p;
               version := version p;
               creation_date := creation_date p;
               modification_date := modification_date p |}
  /\ (forall pk, owners_of db' pk = owners_of db pk)
  /\ (forall pk, pk <> modify_id args -> plugins db' !! pk = plugins db !! pk).
Proof.
  intros Hp H. rewrite modify_plugin_eq, Hp in H.
  destruct (is_valid db (Some (modify_id args)) (modify_data p args)); [|discriminate].
  cbv zeta in H. destruct (owner_to_add db args) as [u|] eqn:Eu; [|discriminate].
  destruct (bool_decide (u ∈ users db)) eqn:Ex; [discriminate|].
  injection H as <-. apply bool_decide_eq_false in Ex.
  apply owner_to_add_Some in Eu. destruct Eu as (Hu & _ & _).
  split; [exists u; split; assumption|].
  split; [cbn; rewrite lookup_insert_eq; reflexivity|].
  split; [reflexivity|].
  intros pk Hpk. cbn. rewrite lookup_insert_ne by congruence. reflexivity.
Qed.

(** C5. A [modify] whose [--newowner] is already an owner of the plugin
    leaves the owners of the plugin as they were. *)
Theorem modify_existing_owner (now : Z) (args : modify_args) (db : DB) (u : pystr) :
  newowner args = Some u -> u ∈ owners_of db (modify_id args) ->
  owners_of (snd (modify_plugin is_valid now args db)) (modify_id args)
  = owners_of db (modify_id args).
Proof.
  intros Hu Hin.
  destruct (modify_plugin_owners is_valid now args db (modify_id args))
    as [H | (w & Hw & _)]; [exact H|].
  apply owner_to_add_Some in Hw. destruct Hw as (Hw & _ & Hn).
  rewrite Hu in Hw. injection Hw as <-. contradiction.
Qed.

(** C6. A successful [modify] whose [--newowner] names a user who is not
    yet an owner adds that user, who is registered, to the owners and
    keeps the others. *)
Theorem modify_new_owner (now : Z) (args : modify_args) (db db' : DB) (u : pystr) :
  newowner args = Some u -> u <> [] -> u ∉ owners_of db (modify_id args) ->
  modify_plugin is_valid now args db = (Ok tt, db') ->
  u ∈ users db
  /\ owners_of db' (modify_id args) = owners_of db (modify_id args) ∪ {[u]}
  /\ size (owners_of db' (modify_id args)) = S (size (owners_of db (modify_id args))).
Proof.
  intros Hu Hne Hnin H.
  assert (Ea : owner_to_add db args = Some u).
  { unfold owner_to_add. rewrite Hu. destruct u as [|c w]; [congruence|].
    rewrite bool_decide_eq_false_2 by exact Hnin. reflexivity. }
  rewrite modify_plugin_eq in H.
  destruct (plugins db !! modify_id args) as [p|]; [|discriminate].
  destruct (is_valid db (Some (modify_id args)) (modify_data p args)); [|discriminate].
  cbv zeta in H. rewrite Ea in H.
  destruct (bool_decide (u ∈ users db)) eqn:Ex; [|discriminate].
  apply bool_decide_eq_true in Ex. injection H as <-.
  match goal with
  | |- _ /\ owners_of ?d _ = _ /\ _ =>
      assert (Ho : owners_of d (modify_id args) = owners_of db (modify_id args) ∪ {[u]})
  end.
  { unfold owners_of at 1. cbn. rewrite lookup_insert_eq. cbn.
    apply list_to_set_elements_snoc. }
  split; [exact Ex|]. split; [exact Ho|].
  rewrite Ho. rewrite size_union by (apply disjoint_singleton_r; exact Hnin).
  rewrite size_singleton. lia.
Qed.

(** C7. [remove_plugin] on an id without a row fails with [NameError]
    and changes nothing; on an id with a row it succeeds and leaves no row
    with that id. *)
Theorem remove_plugin_spec (args : remove_args) (db : DB) :
  (plugins db !! remove_id args = None ->
   remove_plugin args db = (Err NameError, db))
  /\ (is_Some (plugins db !! remove_id args) ->
      exists db', remove_plugin args db = (Ok tt, db')
                  /\ plugins db' !! remove_id args = None).
Proof.
  unfold remove_plugin, bind, get_plugin. split.
  - intros H. rewrite H. reflexivity.
  - intros [p H]. rewrite H. eexists. split; [reflexivity|].
    cbn. apply lookup_delete_eq.
Qed.

(** C8. A successful [modify] keeps the name, the descriptor and the
    version of the row, sets its repository and image to the arguments
    and its modification date to the current time, and touches no other
    row. *)
Theorem modify_plugin_frame (now : Z) (args : modify_args) (db db' : DB) (p : Plugin) :
  plugins db !! modify_id args = Some p ->
  modify_plugin is_valid now args db = (Ok tt, db') ->
  plugins db' !! modify_id args
  = Some {| name := name p;
            public_repo := modify_publicrepo args;
            dock_image := modify_dockerimage args;
            descriptor_file := descriptor_file p;
            version := version p;
            creation_date := creation_date p;
            modification_date := now |}
  /\ (forall pk, pk <> modify_id args ->
        plugins db' !! pk = plugins db !! pk
        /\ owners_of db' pk = owners_of db pk).
Proof.
  intros Hp H. rewrite modify_plugin_eq, Hp in H.
  destruct (is_valid db (Some (modify_id args)) (modify_data p args)); [|discriminate].
  cbv zeta in H. destruct (owner_to_add db args) as [u|].
  - destruct (bool_decide (u ∈ users db)); [|discriminate]. injection H as <-.
    split; [cbn; rewrite lookup_insert_eq; reflexivity|].
    intros pk Hpk. split.
    + cbn. rewrite !lookup_insert_ne by congruence. reflexivity.
    + unfold owners_of. cbn. rewrite lookup_insert_ne by congruence. reflexivity.
  - injection H as <-.
    split; [cbn; rewrite lookup_insert_eq; reflexivity|].
    intros pk Hpk. split; [|reflexivity].
    cbn. rewrite !lookup_insert_ne by congruence. reflexivity.
Qed.

Lemma add_plugin_cases (now : Z) (a : add_args) (db : DB) :
  (exists e, add_plugin is_valid storage_name now a db = (Err e, db))
  \/ (exists row,
        add_plugin is_valid storage_name now a db
        = (Ok (next_id db),
           {| plugins := <[next_id db := row]> (plugins db);
              plugin_owner := <[next_id db := {[add_owner a]}]> (plugin_owner db);
              users := users db;
              next_id := (next_id db + 1)%Z |})).
Proof.
  unfold add_plugin, bind, lift.
  destruct (get_plugin_descriptor_file a) as [df|e]; [|left; exists e; reflexivity].
  destruct (get_plugin_version_from_app_representation df) as [v|e];
    [|left; exists e; reflexivity].
  unfold serializer_is_valid.
  destruct (is_valid db None _); [|left; eexists; reflexivity].
  unfold User_objects_get.
  destruct (bool_decide (add_owner a ∈ users db)); [|left; eexists; reflexivity].
  right. unfold serializer_create. eexists. cbn.
  rewrite (right_id_L ∅ (∪)). reflexivity.
Qed.

Lemma owned_insert_plugin (db : DB) (pk : Z) (p q : Plugin) :
  plugins db !! pk = Some p -> owned db ->
  owned (set_plugins db (<[pk := q]> (plugins db))).
Proof.
  intros Hp Ho pk' Hs. rewrite owners_of_set_plugins. apply Ho.
  cbn in Hs. destruct (decide (pk = pk')) as [<- | Hne].
  - rewrite Hp. eexists. reflexivity.
  - rewrite lookup_insert_ne in Hs by exact Hne. exact Hs.
Qed.

(** After [run] on an add command the database is the one [add_plugin]
    left, or the one before. *)
Lemma run_add_db (now : Z) (a : add_args) (db : DB) :
  snd (run is_valid storage_name now (add a) db) = snd (add_plugin is_valid storage_name now a db)
  \/ snd (run is_valid storage_name now (add a) db) = db.
Proof.
  unfold run, bind, lift, parse_args.
  destruct (descriptorfile a) as [f|], (descriptorstring a) as [s|];
    try (right; reflexivity);
    (destruct (negb (truthy _) && negb (truthy _)); [right; reflexivity|]);
    left; destruct (add_plugin is_valid storage_name now a db) as [[pk|e] db']; reflexivity.
Qed.

(** C9. Every plugin row has at least one owner, and [run] keeps it so:
    [add] creates a row with exactly one owner, [modify] never takes an
    owner away, and [remove] takes the row away with its owners. *)
Theorem owners_invariant (now : Z) (db : DB) :
  owned db ->
  (forall argv, owned (snd (run is_valid storage_name now argv db)))
  /\ (forall a pk db', add_plugin is_valid storage_name now a db = (Ok pk, db') ->
        owners_of db' pk = {[add_owner a]})
  /\ (forall m pk, owners_of db pk ⊆ owners_of (snd (modify_plugin is_valid now m db)) pk).
Proof.
  intros Ho.
  assert (Hadd : forall a pk db', add_plugin is_valid storage_name now a db = (Ok pk, db') ->
                   owners_of db' pk = {[add_owner a]}).
  { intros a pk db' H. destruct (add_plugin_cases now a db) as [[e He] | [row Hr]].
    - rewrite He in H. discriminate.
    - rewrite Hr in H. injection H as <- <-. unfold owners_of. cbn.
      rewrite lookup_insert_eq. reflexivity. }
  assert (Hmod : forall m pk,
             owners_of db pk ⊆ owners_of (snd (modify_plugin is_valid now m db)) pk).
  { intros m pk. destruct (modify_plugin_owners is_valid now m db pk)
      as [H | (u & _ & _ & _ & _ & H)]; rewrite H;
      [reflexivity | apply union_subseteq_l]. }
  split; [|split; assumption].
  intros [a | m | r].
  - destruct (run_add_db now a db) as [-> | ->]; [|exact Ho].
    destruct (add_plugin_cases now a db) as [[e He] | [row Hr]];
      [rewrite He; exact Ho | rewrite Hr; cbn [snd]].
    intros pk Hs. unfold owners_of. cbn [plugins plugin_owner] in Hs |- *.
    destruct (decide (next_id db = pk)) as [<- | Hne].
    + rewrite lookup_insert_eq. cbn [default]. apply non_empty_singleton_L.
    + rewrite lookup_insert_ne in Hs by exact Hne.
      rewrite lookup_insert_ne by exact Hne. apply Ho. exact Hs.
  - unfold run, bind, lift. cbn. intros pk Hs.
    assert (Hs' : is_Some (plugins db !! pk)).
    { revert Hs. rewrite modify_plugin_eq.
      destruct (plugins db !! modify_id m) as [p|] eqn:Hp; [|exact id].
      destruct (is_valid db (Some (modify_id m)) (modify_data p m)); [|exact id].
      cbv zeta.
      assert (G : forall (q : Plugin) (mp : gmap Z Plugin),
                    (is_Some (mp !! pk) -> is_Some (plugins db !! pk)) ->
                    is_Some (<[modify_id m := q]> mp !! pk) -> is_Some (plugins db !! pk)).
      { intros q mp Himp. destruct (decide (modify_id m = pk)) as [<- | Hne].
        - intros _. rewrite Hp. eexists. reflexivity.
        - rewrite lookup_insert_ne by exact Hne. exact Himp. }
      destruct (owner_to_add db m) as [u|].
      - destruct (bool_decide (u ∈ users db)); cbn [snd set_plugins set_owners plugins].
        + apply G, G. exact id.
        + apply G. exact id.
      - cbn [snd set_plugins plugins]. apply G, G. exact id. }
    specialize (Ho pk Hs'). specialize (Hmod m pk).
    intros He. rewrite He in Hmod. apply Ho. apply equiv_empty_L. exact Hmod.
  - unfold run, bind, lift. cbn [parse_args].
    unfold remove_plugin, bind, get_plugin.
    destruct (plugins db !! remove_id r) as [p|] eqn:Hp; [|exact Ho].
    cbn. intros pk Hs. unfold owners_of. cbn in Hs |- *.
    destruct (decide (remove_id r = pk)) as [<- | Hne].
    + rewrite lookup_delete_eq in Hs. destruct Hs as [? Hs]. discriminate.
    + rewrite lookup_delete_ne in Hs by exact Hne.
      rewrite lookup_delete_ne by exact Hne. apply Ho. exact Hs.
Qed.

(** C10, as amended.  The blob made from a [--descriptorstring] that is
    Unicode text (no surrogate code point in it) which [json.loads]
    accepts parses to the value the string itself parses to. *)
Theorem descriptor_string_roundtrip {PL : PyFloatLaws} (args : add_args)
    (s : pystr) (v : json) :
  truthy (descriptorfile args) = false -> descriptorstring args = Some s ->
  unicode_text s -> json_loads s = Some v ->
  exists content,
    get_plugin_descriptor_file args
    = Ok (ContentFile (add_name args ++ lit ".json") content)
    /\ decode content ≫= json_loads = Some v.
Proof.
  intros Hf Hs Ht Hv.
  pose proof (get_plugin_descriptor_file_string args s Hf Hs Ht) as H.
  rewrite Hv in H. destruct H as (content & _ & H1 & H2).
  exists content. split; assumption.
Qed.

(** With [--descriptorfile], [get_plugin_descriptor_file] returns the
    argument itself; it looks at no file. *)
Lemma get_plugin_descriptor_file_path (args : add_args) :
  truthy (descriptorfile args) = true ->
  exists path, descriptorfile args = Some path
               /\ get_plugin_descriptor_file args = Ok (PathStr path).
Proof.
  unfold get_plugin_descriptor_file. intros H. rewrite H.
  destruct (descriptorfile args) as [path|]; [|discriminate].
  exists path. split; reflexivity.
Qed.

End Claims.

(** ** More on the manager's operations *)

Section Operations.
Context {PF : PyFloat}.
Variable is_valid : DB -> option Z -> plugin_data -> bool.
Variable storage_name : DB -> pystr -> pystr.

(** What [add_plugin] did, by its result. *)
Lemma add_plugin_inv (now : Z) (a : add_args) (db db' : DB) (r : result Z) :
  add_plugin is_valid storage_name now a db = (r, db') ->
  match r with
  | Err _ => db' = db
  | Ok pk =>
      exists df v,
        get_plugin_descriptor_file a = Ok df
        /\ get_plugin_version_from_app_representation df = Ok v
        /\ add_owner a ∈ users db
        /\ pk = next_id db
        /\ db' = {| plugins :=
                      <[next_id db :=
                          {| name := add_name a;
                             public_repo := add_publicrepo a;
                             dock_image := add_dockerimage a;
                             descriptor_file := saved_as storage_name db df;
                             version := v;
                             creation_date := now;
                             modification_date := now |}]> (plugins db);
                    plugin_owner := <[next_id db := {[add_owner a]}]> (plugin_owner db);
                    users := users db;
                    next_id := (next_id db + 1)%Z |}
  end.
Proof.
  unfold add_plugin, bind, lift.
  destruct (get_plugin_descriptor_file a) as [df|e] eqn:Ed;
    [|intros H; injection H as <- <-; reflexivity].
  destruct (get_plugin_version_from_app_representation df) as [v|e] eqn:Ev;
    [|intros H; injection H as <- <-; reflexivity].
  unfold serializer_is_valid.
  destruct (is_valid db None _); [|intros H; injection H as <- <-; reflexivity].
  unfold User_objects_get.
  destruct (bool_decide (add_owner a ∈ users db)) eqn:Eu;
    [|intros H; injection H as <- <-; reflexivity].
  apply bool_decide_eq_true in Eu.
  unfold serializer_create. intros H. injection H as <- <-.
  exists df, v. split; [reflexivity|]. split; [exact Ev|]. split; [exact Eu|].
  split; [reflexivity|].
  cbn. rewrite (right_id_L ∅ (∪)). reflexivity.
Qed.

(** [run] on an add command, by what [parse_args] and the check on the
    descriptor options let through. *)
Lemma run_add_eq (now : Z) (a : add_args) (db : DB) :
  run is_valid storage_name now (add a) db =
  if negb (truthy (descriptorfile a)) && negb (truthy (descriptorstring a))
  then (Err UsageError, db)
  else
    match descriptorfile a, descriptorstring a with
    | Some _, Some _ => (Err UsageError, db)
    | _, _ =>
        match add_plugin is_valid storage_name now a db with
        | (Ok _, db') => (Ok tt, db')
        | (Err e, db') => (Err e, db')
        end
    end.
Proof.
  unfold run, bind, lift, parse_args.
  destruct (descriptorfile a) as [f|] eqn:Ef, (descriptorstring a) as [s|] eqn:Es;
    cbn beta iota; rewrite ?Ef, ?Es;
    destruct (negb (truthy _) && negb (truthy _)); try reflexivity;
    destruct (add_plugin is_valid storage_name now a db) as [[pk|e] db']; reflexivity.
Qed.

(** X1. An add command that names an unregistered owner creates nothing:
    [add_plugin] fails and the database is as before. *)
Theorem add_plugin_unknown_owner (now : Z) (a : add_args) (db : DB) :
  add_owner a ∉ users db ->
  exists e, add_plugin is_valid storage_name now a db = (Err e, db).
Proof.
  intros Hu. destruct (add_plugin is_valid storage_name now a db) as [[pk|e] db'] eqn:E.
  - apply add_plugin_inv in E. destruct E as (df & v & _ & _ & Hin & _). contradiction.
  - pose proof (add_plugin_inv _ _ _ _ _ E) as ->. exists e. reflexivity.
Qed.

(** X2. A failing [add_plugin] has written nothing. *)
Theorem add_plugin_error_unchanged (now : Z) (a : add_args) (db db' : DB) (e : error) :
  add_plugin is_valid storage_name now a db = (Err e, db') -> db' = db.
Proof. intros H. apply (add_plugin_inv _ _ _ _ _ H). Qed.

(** X3. [run] with a [--descriptorstring] that is given, not empty and not
    JSON fails with [JSONDecodeError] and changes nothing. *)
Theorem run_add_invalid_json (now : Z) (a : add_args) (db : DB) (s : pystr) :
  descriptorfile a = None -> descriptorstring a = Some s -> s <> [] ->
  json_loads s = None ->
  run is_valid storage_name now (add a) db = (Err JSONDecodeError, db).
Proof.
  intros Hf Hs Hne Hj. rewrite run_add_eq, Hf, Hs.
  destruct s as [|c s]; [congruence|]. cbn [truthy negb andb].
  unfold add_plugin, bind, lift, get_plugin_descriptor_file.
  rewrite Hf, Hs. cbn [truthy]. rewrite Hj. reflexivity.
Qed.

(** X4. The row a successful [add_plugin] creates: name, repository and
    image as given, the descriptor [get_plugin_descriptor_file] resolved,
    with its content and under the name the file storage picked for it,
    a registered owner; the rows and owners under every other key are
    untouched. *)
Theorem add_plugin_row (now : Z) (a : add_args) (db db' : DB) (pk : Z) :
  add_plugin is_valid storage_name now a db = (Ok pk, db') ->
  (exists row df,
     plugins db' !! pk = Some row
     /\ name row = add_name a
     /\ public_repo row = add_publicrepo a
     /\ dock_image row = add_dockerimage a
     /\ get_plugin_descriptor_file a = Ok df
     /\ descriptor_file row = saved_as storage_name db df)
  /\ add_owner a ∈ users db
  /\ (forall pk', pk' <> pk ->
        plugins db' !! pk' = plugins db !! pk'
        /\ owners_of db' pk' = owners_of db pk').
Proof.
  intros H. apply add_plugin_inv in H.
  destruct H as (df & v & Hdf & _ & Hu & -> & ->).
  split; [|split; [exact Hu|]].
  - eexists _, df. cbn [plugins]. rewrite lookup_insert_eq.
    split; [reflexivity|]. cbn. repeat split; try reflexivity. exact Hdf.
  - intros pk' Hne. unfold owners_of. cbn [plugins plugin_owner].
    rewrite !lookup_insert_ne by congruence. split; reflexivity.
Qed.

(** X5. An add command whose descriptor options are both absent or empty
    is a usage error, whether or not they were typed. *)
Theorem run_add_empty_descriptors (now : Z) (a : add_args) (db : DB) :
  truthy (descriptorfile a) = false -> truthy (descriptorstring a) = false ->
  run is_valid storage_name now (add a) db = (Err UsageError, db).
Proof. intros Hf Hs. rewrite run_add_eq, Hf, Hs. reflexivity. Qed.

Lemma modify_plugin_users (now : Z) (args : modify_args) (db : DB) :
  users (snd (modify_plugin is_valid now args db)) = users db.
Proof.
  rewrite modify_plugin_eq.
  destruct (plugins db !! modify_id args) as [p|]; [|reflexivity].
  destruct (is_valid db (Some (modify_id args)) (modify_data p args)); [|reflexivity].
  cbv zeta. destruct (owner_to_add db args) as [u|]; [|reflexivity].
  destruct (bool_decide (u ∈ users db)); reflexivity.
Qed.

Lemma remove_plugin_eq (args : remove_args) (db : DB) :
  remove_plugin args db =
  match plugins db !! remove_id args with
  | Some _ =>
      (Ok tt, {| plugins := delete (remove_id args) (plugins db);
                 plugin_owner := delete (remove_id args) (plugin_owner db);
                 users := users db;
                 next_id := next_id db |})
  | None => (Err NameError, db)
  end.
Proof.
  unfold remove_plugin, bind, get_plugin.
  destruct (plugins db !! remove_id args); reflexivity.
Qed.

(** X6. No command changes the registered users. *)
Theorem run_users_unchanged (now : Z) (argv : options) (db : DB) :
  users (snd (run is_valid storage_name now argv db)) = users db.
Proof.
  destruct argv as [a | m | r].
  - destruct (run_add_db is_valid storage_name now a db) as [-> | ->]; [|reflexivity].
    destruct (add_plugin is_valid storage_name now a db) as [[pk|e] db'] eqn:E;
      apply add_plugin_inv in E; cbn [snd].
    + destruct E as (df & v & _ & _ & _ & _ & ->). reflexivity.
    + rewrite E. reflexivity.
  - apply modify_plugin_users.
  - unfold run, bind, lift. cbn [parse_args]. rewrite remove_plugin_eq.
    destruct (plugins db !! remove_id r); reflexivity.
Qed.

(** X7. A command that fails leaves the database as it was, unless it is a
    [modify] that stopped at the new owner. *)
Theorem run_error_unchanged (now : Z) (argv : options) (db db' : DB) (e : error) :
  run is_valid storage_name now argv db = (Err e, db') -> e <> OwnerNotFoundError -> db' = db.
Proof.
  intros H He. destruct argv as [a | m | r].
  - rewrite run_add_eq in H.
    destruct (negb (truthy (descriptorfile a)) && negb (truthy (descriptorstring a)));
      [injection H as _ <-; reflexivity|].
    assert (G : match add_plugin is_valid storage_name now a db with
                | (Ok _, db0) => (Ok tt, db0)
                | (Err e0, db0) => (Err e0, db0)
                end = (Err e, db') -> db' = db).
    { destruct (add_plugin is_valid storage_name now a db) as [[pk|e0] db0] eqn:E; [discriminate|].
      intros G. injection G as _ <-. apply (add_plugin_inv _ _ _ _ _ E). }
    destruct (descriptorfile a), (descriptorstring a);
      try (apply G; exact H). injection H as _ <-. reflexivity.
  - unfold run, bind, lift in H. cbn [parse_args] in H.
    rewrite modify_plugin_eq in H.
    destruct (plugins db !! modify_id m) as [p|]; [|injection H as _ <-; reflexivity].
    destruct (is_valid db (Some (modify_id m)) (modify_data p m));
      [|injection H as _ <-; reflexivity].
    cbv zeta in H. destruct (owner_to_add db m) as [u|]; [|discriminate].
    destruct (bool_decide (u ∈ users db)); [discriminate|].
    injection H as <- _. congruence.
  - unfold run, bind, lift in H. cbn [parse_args] in H.
    rewrite remove_plugin_eq in H.
    destruct (plugins db !! remove_id r); [discriminate|].
    injection H as _ <-. reflexivity.
Qed.

(** X8. Owners are registered users, and every command keeps it so: [add]
    looks the owner up before it saves, [modify] validates a new owner,
    and no command touches the users. *)
Theorem run_keeps_registered (now : Z) (argv : options) (db : DB) :
  registered db -> registered (snd (run is_valid storage_name now argv db)).
Proof.
  intros Hr. destruct argv as [a | m | r].
  - destruct (run_add_db is_valid storage_name now a db) as [-> | ->]; [|exact Hr].
    destruct (add_plugin is_valid storage_name now a db) as [[pk|e] db'] eqn:E;
      apply add_plugin_inv in E; cbn [snd]; [|rewrite E; exact Hr].
    destruct E as (df & v & _ & _ & Hu & _ & ->).
    intros pk' u. unfold owners_of. cbn [plugin_owner users].
    destruct (decide (next_id db = pk')) as [<- | Hne].
    + rewrite lookup_insert_eq. cbn [default id]. unfold id. intros Hin.
      apply elem_of_singleton in Hin. subst u. exact Hu.
    + rewrite lookup_insert_ne by exact Hne. apply Hr.
  - unfold run, bind, lift. cbn [parse_args]. intros pk u Hin.
    rewrite modify_plugin_users.
    destruct (modify_plugin_owners is_valid now m db pk)
      as [H | (w & _ & Hw & _ & _ & H)]; rewrite H in Hin.
    + apply (Hr pk u Hin).
    + apply elem_of_union in Hin. destruct Hin as [Hin | Hin].
      * apply (Hr pk u Hin).
      * apply elem_of_singleton in Hin. subst u. exact Hw.
  - unfold run, bind, lift. cbn [parse_args]. rewrite remove_plugin_eq.
    destruct (plugins db !! remove_id r); [|exact Hr].
    cbn [snd]. intros pk u. unfold owners_of. cbn [plugin_owner users].
    destruct (decide (remove_id r = pk)) as [<- | Hne].
    + rewrite lookup_delete_eq. cbn [default id]. unfold id. intros Hin.
      apply elem_of_empty in Hin. destruct Hin.
    + rewrite lookup_delete_ne by exact Hne. apply Hr.
Qed.

(** X9. Whatever [modify_plugin] returns, every row that was there is
    still there, with its name, descriptor, version and creation date. *)
Theorem modify_plugin_keeps_rows (now : Z) (args : modify_args) (db : DB)
    (pk : Z) (p : Plugin) :
  plugins db !! pk = Some p ->
  exists p',
    plugins (snd (modify_plugin is_valid now args db)) !! pk = Some p'
    /\ name p' = name p
    /\ descriptor_file p' = descriptor_file p
    /\ version p' = version p
    /\ creation_date p' = creation_date p.
Proof.
  intros Hp. rewrite modify_plugin_eq.
  destruct (plugins db !! modify_id args) as [q|] eqn:Hq;
    [|exists p; repeat split; exact Hp].
  destruct (is_valid db (Some (modify_id args)) (modify_data q args));
    [|exists p; repeat split; exact Hp].
  cbv zeta.
  assert (G : forall (x y : Plugin) (mp : gmap Z Plugin),
            name x = name q -> descriptor_file x = descriptor_file q ->
            version x = version q -> creation_date x = creation_date q ->
            (mp = plugins db \/ mp = <[modify_id args := y]> (plugins db)) ->
            exists p', <[modify_id args := x]> mp !! pk = Some p'
                       /\ name p' = name p /\ descriptor_file p' = descriptor_file p
                       /\ version p' = version p /\ creation_date p' = creation_date p).
  { intros x y mp H1 H2 H3 H4 Hmp.
    destruct (decide (modify_id args = pk)) as [<- | Hne].
    - exists x. rewrite lookup_insert_eq. rewrite Hq in Hp. injection Hp as <-.
      repeat split; assumption.
    - exists p. rewrite lookup_insert_ne by exact Hne.
      destruct Hmp as [-> | ->]; [|rewrite lookup_insert_ne by exact Hne];
        repeat split; exact Hp. }
  destruct (owner_to_add db args) as [u|].
  - destruct (bool_decide (u ∈ users db)); cbn [snd set_plugins set_owners plugins].
    + eapply (G _ (with_repo_image q args)); try reflexivity. right. reflexivity.
    + eapply (G _ (with_repo_image q args)); try reflexivity. left. reflexivity.
  - cbn [snd set_plugins plugins].
    eapply (G _ (with_repo_image q args)); try reflexivity. right. reflexivity.
Qed.

(** X10. [modify_plugin] changes the owners of no other plugin, and of its
    own plugin only when a non-empty [--newowner] is given. *)
Theorem modify_plugin_owners_elsewhere (now : Z) (args : modify_args) (db : DB) (pk : Z) :
  pk <> modify_id args \/ truthy (newowner args) = false ->
  owners_of (snd (modify_plugin is_valid now args db)) pk = owners_of db pk.
Proof.
  intros H.
  destruct (modify_plugin_owners is_valid now args db pk)
    as [E | (u & Hu & _ & Hpk & _)]; [exact E|].
  apply owner_to_add_Some in Hu. destruct Hu as (Hu & Hne & _).
  destruct H as [H | H]; [contradiction|].
  rewrite Hu in H. destruct u; [congruence | discriminate].
Qed.

Lemma owner_to_add_after (db : DB) (args : modify_args) (u : pystr)
    (mp : gmap Z Plugin) (q : DB) :
  owner_to_add db args = Some u ->
  owners_of q (modify_id args) = owners_of db (modify_id args) ∪ {[u]} ->
  owner_to_add q args = None.
Proof.
  intros Hu Hq. apply owner_to_add_Some in Hu. destruct Hu as (Hu & Hne & _).
  unfold owner_to_add. rewrite Hu. destruct u as [|c w]; [reflexivity|].
  rewrite bool_decide_eq_true_2; [reflexivity|].
  rewrite Hq. apply elem_of_union_r, elem_of_singleton. reflexivity.
Qed.

Lemma owner_to_add_same (db q : DB) (args : modify_args) :
  owners_of q (modify_id args) = owners_of db (modify_id args) ->
  owner_to_add q args = owner_to_add db args.
Proof. intros H. unfold owner_to_add. rewrite H. reflexivity. Qed.

(** X11. Repeating a successful [modify] changes nothing but the
    modification date. *)
Theorem modify_plugin_twice (now now2 : Z) (args : modify_args) (db db1 db2 : DB) :
  modify_plugin is_valid now args db = (Ok tt, db1) ->
  modify_plugin is_valid now2 args db1 = (Ok tt, db2) ->
  exists p1,
    plugins db1 !! modify_id args = Some p1
    /\ plugins db2 = <[modify_id args := with_modification_date p1 now2]> (plugins db1)
    /\ plugin_owner db2 = plugin_owner db1
    /\ users db2 = users db1
    /\ next_id db2 = next_id db1.
Proof.
  intros H1 H2. rewrite modify_plugin_eq in H1.
  destruct (plugins db !! modify_id args) as [p|] eqn:Hp; [|discriminate].
  destruct (is_valid db (Some (modify_id args)) (modify_data p args)); [|discriminate].
  cbv zeta in H1.
  set (pf := with_modification_date (with_repo_image p args) now) in *.
  assert (Hpf : with_repo_image pf args = pf) by reflexivity.
  assert (G : forall q : DB,
            plugins q !! modify_id args = Some pf ->
            owner_to_add q args = None ->
            modify_plugin is_valid now2 args q = (Ok tt, db2) ->
            exists p1,
              plugins q !! modify_id args = Some p1
              /\ plugins db2 = <[modify_id args := with_modification_date p1 now2]> (plugins q)
              /\ plugin_owner db2 = plugin_owner q
              /\ users db2 = users q
              /\ next_id db2 = next_id q).
  { intros q Hq Ho Hm. rewrite modify_plugin_eq, Hq in Hm.
    destruct (is_valid q (Some (modify_id args)) (modify_data pf args)); [|discriminate].
    cbv zeta in Hm. rewrite Ho in Hm. injection Hm as <-.
    exists pf. split; [exact Hq|]. cbn [plugins plugin_owner users next_id set_plugins].
    rewrite Hpf. rewrite insert_insert_eq.
    repeat split; reflexivity. }
  destruct (owner_to_add db args) as [u|] eqn:Eu.
  - destruct (bool_decide (u ∈ users db)); [|discriminate]. injection H1 as <-.
    apply G; [cbn [plugins set_plugins]; apply lookup_insert_eq | | exact H2].
    apply (owner_to_add_after db args u (plugins db) _ Eu).
    unfold owners_of at 1. cbn [plugin_owner set_plugins set_owners].
    rewrite lookup_insert_eq. cbn [default]. apply list_to_set_elements_snoc.
  - injection H1 as <-.
    apply G; [cbn [plugins set_plugins]; apply lookup_insert_eq | | exact H2].
    rewrite <- Eu. apply owner_to_add_same. reflexivity.
Qed.

(** X12. Removing a plugin a second time fails with [NameError] and
    changes nothing. *)
Theorem remove_plugin_twice (args : remove_args) (db db' : DB) :
  remove_plugin args db = (Ok tt, db') ->
  remove_plugin args db' = (Err NameError, db').
Proof.
  intros H. rewrite remove_plugin_eq in H.
  destruct (plugins db !! remove_id args); [|discriminate]. injection H as <-.
  rewrite remove_plugin_eq. cbn [plugins]. rewrite lookup_delete_eq. reflexivity.
Qed.

(** X13. A successful [remove_plugin] leaves the plugin without owners
    and touches no other row and no other plugin's owners. *)
Theorem remove_plugin_frame (args : remove_args) (db db' : DB) :
  remove_plugin args db = (Ok tt, db') ->
  owners_of db' (remove_id args) = ∅
  /\ forall pk, pk <> remove_id args ->
       plugins db' !! pk = plugins db !! pk
       /\ owners_of db' pk = owners_of db pk.
Proof.
  intros H. rewrite remove_plugin_eq in H.
  destruct (plugins db !! remove_id args); [|discriminate]. injection H as <-.
  unfold owners_of. cbn [plugins plugin_owner]. split.
  - rewrite lookup_delete_eq. reflexivity.
  - intros pk Hne. rewrite !lookup_delete_ne by congruence. split; reflexivity.
Qed.

(** X14. Adding a plugin under a key that is free and removing it again
    gives back the plugin rows and the owners there were. *)
Theorem add_then_remove (now : Z) (a : add_args) (db db1 : DB) (pk : Z) :
  plugins db !! next_id db = None -> plugin_owner db !! next_id db = None ->
  add_plugin is_valid storage_name now a db = (Ok pk, db1) ->
  exists db2,
    remove_plugin {| remove_id := pk |} db1 = (Ok tt, db2)
    /\ plugins db2 = plugins db
    /\ plugin_owner db2 = plugin_owner db
    /\ users db2 = users db.
Proof.
  intros Hf Ho H. apply add_plugin_inv in H.
  destruct H as (df & v & _ & _ & _ & -> & ->).
  rewrite remove_plugin_eq. cbn [remove_id plugins plugin_owner users next_id].
  rewrite lookup_insert_eq. eexists. split; [reflexivity|].
  cbn [plugins plugin_owner users].
  rewrite !delete_insert_eq, !delete_id by assumption. repeat split; reflexivity.
Qed.

(** X15. Whatever JSON the [--descriptorstring] holds, the descriptor is
    resolved: the encoding never fails, the blob is named after the
    plugin, and its content is ASCII. *)
Theorem descriptor_blob_ascii {PL : PyFloatLaws} (a : add_args) (s : pystr) (v : json) :
  truthy (descriptorfile a) = false -> descriptorstring a = Some s ->
  json_loads s = Some v ->
  exists content,
    get_plugin_descriptor_file a = Ok (ContentFile (add_name a ++ lit ".json") content)
    /\ Forall (fun b => Byte.to_N b < 128) content.
Proof.
  intros Hf Hs Hv. unfold get_plugin_descriptor_file. rewrite Hf, Hs, Hv.
  pose proof (json_dumps_ascii v) as Ha.
  unfold encode. rewrite (utf8_encode_ascii _ Ha).
  destruct (bytes_of_N_ascii _ Ha) as (bs & H1 & H2). rewrite H1.
  exists bs. split; [reflexivity|].
  rewrite <- H2 in Ha. unfold is_ascii in Ha.
  apply Forall_map in Ha. exact Ha.
Qed.

(** X16. The resolved descriptor is a normal form: given the text of the
    blob as [--descriptorstring], the resolution yields the same blob. *)
Theorem descriptor_normal_form {PL : PyFloatLaws} (a : add_args) (s : pystr)
    (fname : pystr) (content : list Byte.byte) :
  truthy (descriptorfile a) = false -> descriptorstring a = Some s ->
  unicode_text s ->
  get_plugin_descriptor_file a = Ok (ContentFile fname content) ->
  exists text,
    decode content = Some text
    /\ get_plugin_descriptor_file (with_descriptorstring a text)
       = Ok (ContentFile fname content).
Proof.
  intros Hf Hs Ht H. unfold get_plugin_descriptor_file in H. rewrite Hf, Hs in H.
  destruct (json_loads s) as [v|] eqn:Ev; [|discriminate].
  destruct (encode (json_dumps v)) as [bs|] eqn:Ee; [|discriminate].
  injection H as <- <-.
  destruct (decode_encode_ascii _ (json_dumps_ascii v)) as (bs' & H1 & H2).
  rewrite Ee in H1. injection H1 as <-.
  exists (json_dumps v). split; [exact H2|].
  unfold get_plugin_descriptor_file, with_descriptorstring.
  cbn [descriptorfile descriptorstring add_name]. rewrite Hf.
  rewrite (json_loads_dumps v (json_loads_ok s v Ht Ev)), Ee. reflexivity.
Qed.

End Operations.

(** ** The operations on the small store *)

Lemma nan_float_laws : @PyFloatLaws nan_float.
Proof.
  split.
  - intros x. left. reflexivity.
  - intros []. reflexivity.
Qed.

Import Example.
#[local] Existing Instance nan_float.
#[local] Existing Instance nan_float_laws.

Example add_string_creates :
  fst (add_plugin required_fields keep_names 200 add_string store) = Ok 2%Z.
Proof. vm_compute. reflexivity. Qed.

Lemma add_plugin_version_witness :
  exists row fname content,
    plugins (snd (add_plugin required_fields keep_names 200 add_string store)) !! 2%Z = Some row
    /\ version row = JStr (lit "1.0")
    /\ descriptor_file row = ContentFile fname content
    /\ match decode content with
       | Some text => declared_version text
       | None => None
       end = Some (JStr (lit "1.0")).
Proof.
  apply (add_plugin_version (PF := nan_float) required_fields keep_names (PL := nan_float_laws)
           (fun _ => None) 200 add_string store _ 2%Z
           (lit "{ " ++ quoted "version" ++ lit " : " ++ quoted "1.0" ++ lit ", "
             ++ quoted "type" ++ lit ": " ++ quoted "ds" ++ lit " }")).
  - reflexivity.
  - apply Forall_forall. intros c Hc. vm_compute in Hc.
    repeat (apply elem_of_cons in Hc; destruct Hc as [-> | Hc]; [reflexivity|]).
    apply elem_of_nil in Hc. destruct Hc.
  - vm_compute. reflexivity.
  - vm_compute. reflexivity.
Defined.

(** C1, as stated, fails.  [json.loads] accepts the descriptor of
    [add_surrogates], which declares as version the two code points
    U+D83D U+DC80; [add_plugin] creates a record, and its version is the
    one code point U+1F480, read from the blob. *)
Lemma add_plugin_version_surrogates :
  descriptor_source (fun _ => None) add_surrogates = Some surrogates_text
  /\ declared_version surrogates_text = Some (JStr [0xD83D; 0xDC80])
  /\ fst (add_plugin required_fields keep_names 200 add_surrogates store) = Ok 2%Z
  /\ version <$> plugins (snd (add_plugin required_fields keep_names 200
                                 add_surrogates store)) !! 2%Z
     = Some (JStr [0x1F480])
  /\ version <$> plugins (snd (add_plugin required_fields keep_names 200
                                 add_surrogates store)) !! 2%Z
     <> declared_version surrogates_text.
Proof.
  split; [reflexivity|].
  split; [vm_compute; reflexivity|].
  split; [vm_compute; reflexivity|].
  split; [vm_compute; reflexivity|].
  intros H. vm_compute in H. discriminate.
Qed.

Lemma run_add_descriptor_usage_witness :
  ((is_Some (descriptorfile add_both) /\ is_Some (descriptorstring add_both))
   \/ (descriptorfile add_both = None /\ descriptorstring add_both = None))
  /\ run required_fields keep_names 200 (add add_both) store = (Err UsageError, store).
Proof.
  assert (H : (is_Some (descriptorfile add_both) /\ is_Some (descriptorstring add_both))
              \/ (descriptorfile add_both = None /\ descriptorstring add_both = None)).
  { left. split; eexists; reflexivity. }
  split; [exact H|].
  apply (run_add_descriptor_usage required_fields keep_names 200 add_both store H).
Defined.

(** C3, as stated, fails: after a [modify] that stops at the unknown new
    owner [ghost], the row of plugin 1 is not the row it was. *)
Lemma modify_unknown_owner_not_atomic :
  plugins store !! 1%Z = Some simplefsapp
  /\ (lit "ghost" ∉ users store)
  /\ fst (modify_plugin required_fields 300 (modify_with (Some (lit "ghost"))) store)
     = Err OwnerNotFoundError
  /\ (plugins (snd (modify_plugin required_fields 300
                        (modify_with (Some (lit "ghost"))) store)) !! 1%Z)
     <> Some simplefsapp.
Proof.
  split; [reflexivity|]. split.
  { assert (E : bool_decide (lit "ghost" ∈ users store) = false)
      by (vm_compute; reflexivity).
    apply bool_decide_eq_false in E. exact E. }
  split; [vm_compute; reflexivity|].
  intros H. vm_compute in H. discriminate.
Qed.

Lemma modify_unknown_owner_partial_witness :
  plugins store !! modify_id (modify_with (Some (lit "ghost"))) = Some simplefsapp
  /\ plugins (snd (modify_plugin required_fields 300 (modify_with (Some (lit "ghost"))) store))
       !! 1%Z
     = Some {| name := lit "simplefsapp";
               public_repo := lit "https://github.com/y/simplefsapp";
               dock_image := lit "fnndsc/simplefsapp:2";
               descriptor_file := ContentFile (lit "simplefsapp.json") [];
               version := JStr (lit "1.0");
               creation_date := 100;
               modification_date := 100 |}.
Proof.
  split; [reflexivity|].
  apply (modify_unknown_owner_partial required_fields 300
           (modify_with (Some (lit "ghost"))) store _ simplefsapp).
  - reflexivity.
  - vm_compute. reflexivity.
Defined.

(** C4.  Given [--descriptorfile /tmp/pacsquery.json],
    [get_plugin_descriptor_file] returns that string as it is: it opens no
    file, and what it returns is no blob, whatever the file holds. *)
Example descriptorfile_is_the_path :
  get_plugin_descriptor_file add_file = Ok (PathStr (lit "/tmp/pacsquery.json"))
  /\ forall content : list Byte.byte,
       get_plugin_descriptor_file add_file
       <> Ok (ContentFile (lit "/tmp/pacsquery.json") content).
Proof. split; [reflexivity | intros content H; discriminate]. Qed.

(** With the version extraction as the spec describes it, such an add
    command creates no record. *)
Example add_file_fails :
  add_plugin required_fields keep_names 200 add_file store = (Err ValidationError, store).
Proof. reflexivity. Qed.

(** Outside Unicode text the decoder and the encoder do not agree on
    strings: an escaped high surrogate followed by a raw low surrogate is
    read as two code points, printed as two escapes, and those are read
    back as one code point. *)
Example unpaired_surrogates :
  json_loads (34 :: lit "\ud83d" ++ [0xDC80; 34]) = Some (JStr [0xD83D; 0xDC80])
  /\ json_loads (json_dumps (JStr [0xD83D; 0xDC80])) = Some (JStr [0x1F480]).
Proof. split; vm_compute; reflexivity. Qed.

Lemma modify_existing_owner_witness :
  newowner (modify_with (Some (lit "cube"))) = Some (lit "cube")
  /\ lit "cube" ∈ owners_of store 1%Z
  /\ owners_of (snd (modify_plugin required_fields 300 (modify_with (Some (lit "cube"))) store)) 1%Z
     = owners_of store 1%Z.
Proof.
  assert (H : lit "cube" ∈ owners_of store 1%Z).
  { assert (E : bool_decide (lit "cube" ∈ owners_of store 1%Z) = true)
      by (vm_compute; reflexivity).
    apply bool_decide_eq_true in E. exact E. }
  split; [reflexivity|]. split; [exact H|].
  apply (modify_existing_owner required_fields 300 (modify_with (Some (lit "cube")))
           store (lit "cube") eq_refl H).
Defined.

Lemma modify_new_owner_witness :
(lit "chris" ∉ owners_of store 1%Z)
  /\ owners_of (snd (modify_plugin required_fields 300 (modify_with (Some (lit "chris"))) store)) 1%Z
     = owners_of store 1%Z ∪ {[ lit "chris" ]}.
Proof.
  assert (H : lit "chris" ∉ owners_of store 1%Z).
  { assert (E : bool_decide (lit "chris" ∈ owners_of store 1%Z) = false)
      by (vm_compute; reflexivity).
    apply bool_decide_eq_false in E. exact E. }
  split; [exact H|].
  apply (modify_new_owner required_fields 300 (modify_with (Some (lit "chris")))
           store _ (lit "chris") eq_refl).
  - discriminate.
  - exact H.
  - vm_compute. reflexivity.
Defined.

Lemma remove_plugin_spec_witness :
  (plugins store !! 7%Z = None /\
   remove_plugin {| remove_id := 7 |} store = (Err NameError, store))
  /\ (is_Some (plugins store !! 1%Z) /\
      exists db', remove_plugin {| remove_id := 1 |} store = (Ok tt, db')
                  /\ plugins db' !! 1%Z = None).
Proof.
  split.
  - split; [reflexivity|].
    apply (proj1 (remove_plugin_spec {| remove_id := 7 |} store)). reflexivity.
  - assert (H : is_Some (plugins store !! 1%Z)) by (eexists; reflexivity).
    split; [exact H|].
    apply (proj2 (remove_plugin_spec {| remove_id := 1 |} store) H).
Defined.

Lemma modify_plugin_frame_witness :
  plugins store !! 1%Z = Some simplefsapp
  /\ plugins (snd (modify_plugin required_fields 300 (modify_with None) store)) !! 1%Z
     = Some {| name := lit "simplefsapp";
               public_repo := lit "https://github.com/y/simplefsapp";
               dock_image := lit "fnndsc/simplefsapp:2";
               descriptor_file := ContentFile (lit "simplefsapp.json") [];
               version := JStr (lit "1.0");
               creation_date := 100;
               modification_date := 300 |}.
Proof.
  split; [reflexivity|].
  apply (modify_plugin_frame required_fields 300 (modify_with None) store _ simplefsapp).
  - reflexivity.
  - vm_compute. reflexivity.
Defined.

Lemma store_owned : owned store.
Proof.
  intros pk [p Hp]. unfold store in Hp. cbn [plugins] in Hp.
  apply lookup_singleton_Some in Hp. destruct Hp as [<- _].
  unfold owners_of, store. cbn [plugin_owner]. rewrite lookup_singleton_eq.
  cbn [default]. apply non_empty_singleton_L.
Qed.

Lemma owners_invariant_witness :
  owned store
  /\ owned (snd (run required_fields keep_names 200 (add add_string) store))
  /\ owners_of (snd (add_plugin required_fields keep_names 200 add_string store)) 2%Z = {[ lit "cube" ]}.
Proof.
  split; [exact store_owned|].
  destruct (owners_invariant required_fields keep_names 200 store store_owned) as (H1 & H2 & _).
  split; [apply H1|].
  apply (H2 add_string 2%Z). vm_compute. reflexivity.
Defined.

Lemma descriptor_string_roundtrip_witness :
  exists content,
    get_plugin_descriptor_file add_string
    = Ok (ContentFile (lit "pacsquery.json") content)
    /\ decode content ≫= json_loads
       = Some (JObj [(lit "version", JStr (lit "1.0")); (lit "type", JStr (lit "ds"))]).
Proof.
  apply (descriptor_string_roundtrip add_string
           (lit "{ " ++ quoted "version" ++ lit " : " ++ quoted "1.0" ++ lit ", "
             ++ quoted "type" ++ lit ": " ++ quoted "ds" ++ lit " }")).
  - reflexivity.
  - reflexivity.
  - apply Forall_forall. intros c Hc. vm_compute in Hc.
    repeat (apply elem_of_cons in Hc; destruct Hc as [-> | Hc]; [reflexivity|]).
    apply elem_of_nil in Hc. destruct Hc.
  - vm_compute. reflexivity.
Defined.

(** C10, as stated, fails.  [json.loads] accepts the descriptor string
    of [add_surrogates]; the blob made from it parses to another value:
    the two surrogates, printed as two escapes, are read back as one code
    point. *)
Lemma descriptor_string_roundtrip_surrogates :
  truthy (descriptorfile add_surrogates) = false
  /\ descriptorstring add_surrogates = Some surrogates_text
  /\ json_loads surrogates_text = Some (JObj [(lit "version", JStr [0xD83D; 0xDC80])])
  /\ exists content,
       get_plugin_descriptor_file add_surrogates
       = Ok (ContentFile (lit "pacsquery.json") content)
       /\ decode content ≫= json_loads = Some (JObj [(lit "version", JStr [0x1F480])])
       /\ decode content ≫= json_loads <> json_loads surrogates_text.
Proof.
  split; [reflexivity|]. split; [reflexivity|].
  split; [vm_compute; reflexivity|].
  destruct (get_plugin_descriptor_file add_surrogates) as [[path | fname content] | e] eqn:E;
    try (vm_compute in E; discriminate).
  vm_compute in E. injection E as <- <-.
  eexists. split; [vm_compute; reflexivity|].
  split; [vm_compute; reflexivity|].
  intros H. vm_compute in H. discriminate.
Qed.

(** ** More operations on the small store *)

Import Commands.

Lemma add_plugin_unknown_owner_witness :
  (lit "ghost" ∉ users store)
  /\ exists e, add_plugin required_fields keep_names 200 add_ghost store = (Err e, store).
Proof.
  assert (H : add_owner add_ghost ∉ users store).
  { assert (E : bool_decide (add_owner add_ghost ∈ users store) = false)
      by (vm_compute; reflexivity).
    apply bool_decide_eq_false in E. exact E. }
  split; [exact H|].
  apply (add_plugin_unknown_owner required_fields keep_names 200 add_ghost store H).
Defined.

Lemma add_plugin_error_unchanged_witness :
  fst (add_plugin required_fields keep_names 200 add_ghost store) = Err UserDoesNotExist
  /\ snd (add_plugin required_fields keep_names 200 add_ghost store) = store.
Proof.
  split; [vm_compute; reflexivity|].
  apply (add_plugin_error_unchanged required_fields keep_names 200 add_ghost store _ UserDoesNotExist).
  vm_compute. reflexivity.
Defined.

Lemma run_add_invalid_json_witness :
  json_loads (lit "{" ++ quoted "version" ++ lit ": ") = None
  /\ run required_fields keep_names 200 (add add_bad) store = (Err JSONDecodeError, store).
Proof.
  assert (H : json_loads (lit "{" ++ quoted "version" ++ lit ": ") = None)
    by (vm_compute; reflexivity).
  split; [exact H|].
  apply (run_add_invalid_json required_fields keep_names 200 add_bad store
           (lit "{" ++ quoted "version" ++ lit ": ") eq_refl eq_refl);
    [discriminate | exact H].
Defined.

Lemma add_plugin_row_witness :
  exists row content,
    plugins (snd (add_plugin required_fields pacsquery_taken 200 add_string store)) !! 2%Z
    = Some row
    /\ name row = lit "pacsquery"
    /\ public_repo row = lit "https://github.com/x/pacsquery"
    /\ dock_image row = lit "fnndsc/pacsquery"
    /\ get_plugin_descriptor_file add_string
       = Ok (ContentFile (lit "pacsquery.json") content)
    /\ descriptor_file row = ContentFile (lit "pacsquery_v5PiWWO.json") content.
Proof.
  destruct (add_plugin_row required_fields pacsquery_taken 200 add_string store
              (snd (add_plugin required_fields pacsquery_taken 200 add_string store)) 2%Z)
    as ((row & df & H1 & H2 & H3 & H4 & H5 & H6) & _).
  - vm_compute. reflexivity.
  - destruct df as [path | fname content]; [vm_compute in H5; discriminate|].
    assert (Hn : fname = lit "pacsquery.json").
    { vm_compute in H5. injection H5 as <- _. reflexivity. }
    subst fname. exists row, content.
    split; [exact H1|]. split; [exact H2|]. split; [exact H3|]. split; [exact H4|].
    split; [exact H5 | exact H6].
Defined.

Lemma run_add_empty_descriptors_witness :
  descriptorstring add_empty = Some []
  /\ run required_fields keep_names 200 (add add_empty) store = (Err UsageError, store).
Proof.
  split; [reflexivity|].
  apply (run_add_empty_descriptors required_fields keep_names 200 add_empty store); reflexivity.
Defined.

Lemma run_error_unchanged_witness :
  fst (run required_fields keep_names 200 (remove {| remove_id := 7 |}) store) = Err NameError
  /\ snd (run required_fields keep_names 200 (remove {| remove_id := 7 |}) store) = store.
Proof.
  split; [reflexivity|].
  apply (run_error_unchanged required_fields keep_names 200 (remove {| remove_id := 7 |})
           store _ NameError); [reflexivity | discriminate].
Defined.

Lemma store_registered : registered store.
Proof.
  intros pk u. unfold owners_of, store. cbn [plugin_owner users].
  destruct (decide (pk = 1%Z)) as [-> | Hne].
  - rewrite lookup_singleton_eq. cbn [default id]. unfold id. intros H.
    apply elem_of_singleton in H. subst u. apply elem_of_union_l, elem_of_singleton.
    reflexivity.
  - rewrite lookup_singleton_ne by congruence. cbn [default]. intros H.
    apply elem_of_empty in H. destruct H.
Qed.

Lemma run_keeps_registered_witness :
  registered store
  /\ registered (snd (run required_fields keep_names 300
                        (modify (modify_with (Some (lit "chris")))) store)).
Proof.
  split; [exact store_registered|].
  apply (run_keeps_registered required_fields keep_names 300
           (modify (modify_with (Some (lit "chris")))) store store_registered).
Defined.

Lemma modify_plugin_keeps_rows_witness :
  plugins store !! 1%Z = Some simplefsapp
  /\ exists p',
       plugins (snd (modify_plugin required_fields 300
                       (modify_with (Some (lit "ghost"))) store)) !! 1%Z = Some p'
       /\ name p' = name simplefsapp
       /\ descriptor_file p' = descriptor_file simplefsapp
       /\ version p' = version simplefsapp
       /\ creation_date p' = creation_date simplefsapp.
Proof.
  split; [reflexivity|].
  apply (modify_plugin_keeps_rows required_fields 300
           (modify_with (Some (lit "ghost"))) store 1%Z simplefsapp).
  reflexivity.
Defined.

Lemma modify_plugin_owners_elsewhere_witness :
  truthy (newowner (modify_with (Some []))) = false
  /\ owners_of (snd (modify_plugin required_fields 300 (modify_with (Some [])) store)) 1%Z
     = owners_of store 1%Z.
Proof.
  split; [reflexivity|].
  apply (modify_plugin_owners_elsewhere required_fields 300 (modify_with (Some [])) store 1%Z).
  right. reflexivity.
Defined.

Lemma modify_plugin_twice_witness :
  exists p1,
    plugins (snd (modify_plugin required_fields 300
                    (modify_with (Some (lit "chris"))) store)) !! 1%Z = Some p1
    /\ plugins (snd (modify_plugin required_fields 400 (modify_with (Some (lit "chris")))
                       (snd (modify_plugin required_fields 300
                               (modify_with (Some (lit "chris"))) store))))
       = <[1%Z := with_modification_date p1 400]>
           (plugins (snd (modify_plugin required_fields 300
                            (modify_with (Some (lit "chris"))) store)))
    /\ plugin_owner (snd (modify_plugin required_fields 400 (modify_with (Some (lit "chris")))
                            (snd (modify_plugin required_fields 300
                                    (modify_with (Some (lit "chris"))) store))))
       = plugin_owner (snd (modify_plugin required_fields 300
                              (modify_with (Some (lit "chris"))) store)).
Proof.
  destruct (modify_plugin_twice required_fields 300 400 (modify_with (Some (lit "chris")))
              store
              (snd (modify_plugin required_fields 300
                      (modify_with (Some (lit "chris"))) store))
              (snd (modify_plugin required_fields 400 (modify_with (Some (lit "chris")))
                      (snd (modify_plugin required_fields 300
                              (modify_with (Some (lit "chris"))) store)))))
    as (p1 & H1 & H2 & H3 & _).
  - vm_compute. reflexivity.
  - vm_compute. reflexivity.
  - exists p1. split; [exact H1|]. split; [exact H2 | exact H3].
Defined.

Lemma remove_plugin_twice_witness :
  remove_plugin {| remove_id := 1 |} (snd (remove_plugin {| remove_id := 1 |} store))
  = (Err NameError, snd (remove_plugin {| remove_id := 1 |} store)).
Proof.
  apply (remove_plugin_twice {| remove_id := 1 |} store). reflexivity.
Defined.

Lemma remove_plugin_frame_witness :
  owners_of (snd (remove_plugin {| remove_id := 1 |} store)) 1%Z = ∅
  /\ forall pk, pk <> 1%Z ->
       plugins (snd (remove_plugin {| remove_id := 1 |} store)) !! pk = plugins store !! pk
       /\ owners_of (snd (remove_plugin {| remove_id := 1 |} store)) pk = owners_of store pk.
Proof.
  apply (remove_plugin_frame {| remove_id := 1 |} store). reflexivity.
Defined.

Lemma add_then_remove_witness :
  plugins store !! next_id store = None
  /\ exists db2,
       remove_plugin {| remove_id := 2 |}
         (snd (add_plugin required_fields keep_names 200 add_string store)) = (Ok tt, db2)
       /\ plugins db2 = plugins store
       /\ plugin_owner db2 = plugin_owner store
       /\ users db2 = users store.
Proof.
  split; [reflexivity|].
  apply (add_then_remove required_fields keep_names 200 add_string store _ 2%Z).
  - reflexivity.
  - reflexivity.
  - vm_compute. reflexivity.
Defined.

Lemma descriptor_blob_ascii_witness :
  exists content,
    get_plugin_descriptor_file add_string
    = Ok (ContentFile (lit "pacsquery.json") content)
    /\ Forall (fun b => Byte.to_N b < 128) content.
Proof.
  apply (descriptor_blob_ascii add_string
           (lit "{ " ++ quoted "version" ++ lit " : " ++ quoted "1.0" ++ lit ", "
             ++ quoted "type" ++ lit ": " ++ quoted "ds" ++ lit " }")
           (JObj [(lit "version", JStr (lit "1.0")); (lit "type", JStr (lit "ds"))])).
  - reflexivity.
  - reflexivity.
  - vm_compute. reflexivity.
Defined.

Lemma descriptor_normal_form_witness :
  exists content text,
    get_plugin_descriptor_file add_string
    = Ok (ContentFile (lit "pacsquery.json") content)
    /\ decode content = Some text
    /\ get_plugin_descriptor_file (with_descriptorstring add_string text)
       = Ok (ContentFile (lit "pacsquery.json") content).
Proof.
  destruct (get_plugin_descriptor_file add_string) as [[p | fname content] | e] eqn:E;
    try (vm_compute in E; discriminate).
  assert (Hn : fname = lit "pacsquery.json").
  { vm_compute in E. injection E as <- _. reflexivity. }
  subst fname.
  destruct (descriptor_normal_form add_string
              (lit "{ " ++ quoted "version" ++ lit " : " ++ quoted "1.0" ++ lit ", "
                ++ quoted "type" ++ lit ": " ++ quoted "ds" ++ lit " }")
              (lit "pacsquery.json") content) as (text & H1 & H2).
  - reflexivity.
  - reflexivity.
  - apply Forall_forall. intros c Hc. vm_compute in Hc.
    repeat (apply elem_of_cons in Hc; destruct Hc as [-> | Hc]; [reflexivity|]).
    apply elem_of_nil in Hc. destruct Hc.
  - exact E.
  - exists content, text. split; [reflexivity|]. split; assumption.
Defined.
